(** * pydrive-client: a shallow embedding of [main.py]

    The program is a thin command-line wrapper around a Google Drive client
    library.  Its three operations ([upload], [list_files], [download_file])
    and the dispatch in [main] are embedded as computations in a small
    state-and-exception monad over a [World] made of

    - the remote drive (what the service stores),
    - the local disk,
    - the lines printed on standard output,
    - the log of the calls made to the service.

    The library and the service are the environment of the program: a request
    for an unknown identifier raises [ApiRequestError]; every other request
    succeeds.  The local disk is a record of the files written and of the
    directories made: writing and [os.makedirs] are taken to succeed, and the
    authentication flows are modelled by their effect on the session only.
    Statements about what a run has written are therefore made for the runs
    that return.  Loops and recursion of the source are driven by fuel. *)

From Stdlib Require Import String Ascii List Bool Arith Lia.
Import ListNotations.
Local Open Scope string_scope.
Local Open Scope list_scope.

(** ** Python helpers used by the source *)

(** Truthiness of an optional string ([if parent_folder:], [if args.x:]):
    [None] and the empty string are false. *)
Definition truthy (o : option string) : bool :=
  match o with
  | None => false
  | Some s => negb (s =? "")
  end.

(** [s.split(sep)] for a one-character separator. *)
Fixpoint split (sep : ascii) (s : string) : list string :=
  match s with
  | EmptyString => [""]
  | String c s' =>
      if Ascii.eqb c sep then "" :: split sep s'
      else match split sep s' with
           | h :: t => String c h :: t
           | [] => [String c ""]
           end
  end.

Definition slash : ascii := "/"%char.

(** [s.startswith('/')] and [s.endswith('/')]. *)
Definition startswith_sep (s : string) : bool :=
  match s with
  | String c _ => Ascii.eqb c slash
  | EmptyString => false
  end.

Fixpoint endswith_sep (s : string) : bool :=
  match s with
  | EmptyString => false
  | String c EmptyString => Ascii.eqb c slash
  | String _ s' => endswith_sep s'
  end.

(** [os.path.join(a, b)] of posixpath. *)
Definition path_join (a b : string) : string :=
  if startswith_sep b then b
  else if (a =? "") || endswith_sep a then a ++ b
  else a ++ "/" ++ b.

Definition tab : string := String (ascii_of_nat 9) "".

(** ** Data model *)

Definition FOLDER_MIME_TYPE : string := "application/vnd.google-apps.folder".

(** A parent reference as the service returns it. *)
Record ParentRef := mkParentRef {
  ref_id : string;
  isRoot : bool
}.

(** A parent link as the uploader writes it into [file_params]. *)
Record FileLink := mkFileLink {
  link_kind : string;
  link_id : string
}.

Record Permission := mkPermission {
  perm_type : string;
  perm_value : string;
  perm_role : string
}.

(** A remote entry: the metadata of a file or folder, and its content. *)
Record Entry := mkEntry {
  file_id : string;
  title : string;
  mimeType : string;
  parents : list ParentRef;
  trashed : bool;
  webContentLink : string;
  permissions : list Permission;
  content : string
}.

(** The dictionary passed to [drive.CreateFile] by [upload]. *)
Record FileParams := mkFileParams {
  fp_title : string;
  fp_parents : list FileLink
}.

(** The remote drive: the identifier of the root folder, the stored entries
    in the order the service lists them, and the identifiers the service
    hands out to the next uploads. *)
Record Drive := mkDrive {
  root_id : string;
  entries : list Entry;
  fresh_ids : list string
}.

(** The local disk: regular files with their content (latest write first)
    and directories. *)
Record Disk := mkDisk {
  local_files : list (string * string);
  local_dirs : list string
}.

(** The state of the authentication object of [main]: the cached
    credentials file, the credentials in memory, whether their token has
    expired, and the credentials an interactive authentication yields. *)
Record GoogleAuth := mkGoogleAuth {
  creds_file : option string;
  credentials : option string;
  access_token_expired : bool;
  cli_credentials : string
}.

(** Requests sent to the service. *)
Inductive Call : Type :=
| FilesInsert (params : FileParams) (body : string)
| FilesGet (fid : string)
| FilesList (q : string)
| PermissionsInsert (fid : string) (p : Permission)
| MediaDownload (fid : string)
| CommandLineAuth
| Refresh
| Authorize.

Record World := mkWorld {
  remote : Drive;
  disk : Disk;
  stdout : list string;
  log : list Call;
  gauth : GoogleAuth
}.

Inductive Exn : Type :=
| IndexError
| ApiRequestError
| IsADirectoryError.

(** ** The monad: state, exceptions and fuel *)

Inductive Res (A : Type) : Type :=
| Ret (a : A) (w : World)
| Raise (e : Exn) (w : World)
| OutOfFuel.

Arguments Ret {A} a w.
Arguments Raise {A} e w.
Arguments OutOfFuel {A}.

Definition M (A : Type) : Type := World -> Res A.

Definition ret {A} (a : A) : M A := fun w => Ret a w.

Definition bind {A B} (m : M A) (k : A -> M B) : M B :=
  fun w =>
    match m w with
    | Ret a w' => k a w'
    | Raise e w' => Raise e w'
    | OutOfFuel => OutOfFuel
    end.

Definition raise {A} (e : Exn) : M A := fun w => Raise e w.

Definition out_of_fuel {A} : M A := fun _ => OutOfFuel.

Notation "x <- m ;; k" := (bind m (fun x => k))
  (at level 61, m at next level, right associativity).
Notation "m ;;; k" := (bind m (fun _ => k))
  (at level 61, right associativity).

(** [for x in l: body(x)]. *)
Fixpoint for_each {A} (l : list A) (body : A -> M unit) : M unit :=
  match l with
  | [] => ret tt
  | x :: l' => body x ;;; for_each l' body
  end.

(** The world a computation ends in, when it ends. *)
Definition final {A} (r : Res A) : option World :=
  match r with
  | Ret _ w => Some w
  | Raise _ w => Some w
  | OutOfFuel => None
  end.

(** ** Primitives: standard output, local disk, service *)

Definition print (line : string) : M unit :=
  fun w => Ret tt (mkWorld (remote w) (disk w) (stdout w ++ [line]) (log w) (gauth w)).

Definition record_call (c : Call) : M unit :=
  fun w => Ret tt (mkWorld (remote w) (disk w) (stdout w) (log w ++ [c]) (gauth w)).

Definition set_remote (d : Drive) : M unit :=
  fun w => Ret tt (mkWorld d (disk w) (stdout w) (log w) (gauth w)).

Definition set_disk (d : Disk) : M unit :=
  fun w => Ret tt (mkWorld (remote w) d (stdout w) (log w) (gauth w)).

Definition set_gauth (g : GoogleAuth) : M unit :=
  fun w => Ret tt (mkWorld (remote w) (disk w) (stdout w) (log w) g).

Definition get_remote : M Drive := fun w => Ret (remote w) w.
Definition get_disk : M Disk := fun w => Ret (disk w) w.
Definition get_gauth : M GoogleAuth := fun w => Ret (gauth w) w.

Definition mem_string (s : string) (l : list string) : bool :=
  existsb (String.eqb s) l.

Fixpoint assoc (k : string) (l : list (string * string)) : option string :=
  match l with
  | [] => None
  | (k', v) :: l' => if k =? k' then Some v else assoc k l'
  end.

(** [os.path.isdir] and [os.path.exists]. *)
Definition isdir (d : Disk) (p : string) : bool := mem_string p (local_dirs d).

Definition exists_path (d : Disk) (p : string) : bool :=
  match assoc p (local_files d) with
  | Some _ => true
  | None => isdir d p
  end.

(** [os.makedirs]. *)
Definition makedirs (p : string) : M unit :=
  d <- get_disk ;;
  set_disk (mkDisk (local_files d) (p :: local_dirs d)).

(** Writing a regular file. *)
Definition write_file (p : string) (data : string) : M unit :=
  d <- get_disk ;;
  set_disk (mkDisk ((p, data) :: local_files d) (local_dirs d)).

(** The service reads ["root"] as an alias of the root folder. *)
Definition resolve (d : Drive) (fid : string) : string :=
  if fid =? "root" then root_id d else fid.

Fixpoint find_entry (fid : string) (l : list Entry) : option Entry :=
  match l with
  | [] => None
  | e :: l' => if file_id e =? fid then Some e else find_entry fid l'
  end.

Definition lookup (d : Drive) (fid : string) : option Entry :=
  find_entry (resolve d fid) (entries d).

(** [f.FetchMetadata()] on a handle made by [drive.CreateFile({'id': fid})]. *)
Definition FetchMetadata (fid : string) : M Entry :=
  record_call (FilesGet fid) ;;;
  d <- get_remote ;;
  match lookup d fid with
  | Some e => ret e
  | None => raise ApiRequestError
  end.

Definition is_folder (e : Entry) : bool := mimeType e =? FOLDER_MIME_TYPE.

(** What the service answers to the query
    ['<parent_folder>' in parents and trashed=false]. *)
Definition is_child_of (pid : string) (e : Entry) : bool :=
  existsb (fun r => ref_id r =? pid) (parents e).

Definition children (d : Drive) (parent_folder : string) : list Entry :=
  filter (fun e => is_child_of (resolve d parent_folder) e && negb (trashed e))
         (entries d).

Definition list_query (parent_folder : string) : string :=
  "'" ++ parent_folder ++ "' in parents and trashed=false".

(** [drive.ListFile({'q': ...}).GetList()]. *)
Definition ListFile_GetList (parent_folder : string) : M (list Entry) :=
  record_call (FilesList (list_query parent_folder)) ;;;
  d <- get_remote ;;
  ret (children d parent_folder).

(** ** [list_files] *)

Definition list_line (file : Entry) : string :=
  "Title: " ++ title file ++ tab ++ "id: " ++ file_id file.

(** The body of the [for] loop of [list_files]. *)
Definition list_files_body (skip_print skip_directory : bool) (file : Entry) : M unit :=
  if skip_directory && (mimeType file =? FOLDER_MIME_TYPE) then ret tt
  else if negb skip_print then print (list_line file)
  else ret tt.

Definition list_files (parent_folder : string) (skip_print skip_directory : bool)
  : M (list Entry) :=
  file_list <- ListFile_GetList parent_folder ;;
  for_each file_list (list_files_body skip_print skip_directory) ;;;
  ret file_list.

(** ** [upload] *)

Definition UPLOAD_MIME_TYPE : string := "application/octet-stream".

Definition content_link (fid : string) : string :=
  "https://drive.google.com/uc?id=" ++ fid ++ "&export=download".

(** The parent references the service stores for an inserted file: the links
    of the request, or the root folder when the request has none. *)
Definition service_parents (d : Drive) (params : FileParams) : list ParentRef :=
  match fp_parents params with
  | [] => [mkParentRef (root_id d) true]
  | links =>
      map (fun k => mkParentRef (resolve d (link_id k))
                                (resolve d (link_id k) =? root_id d)) links
  end.

(** [file_to_upload.SetContentFile(filename)]: opens the local file. *)
Definition SetContentFile (filename : string) : M string :=
  d <- get_disk ;;
  match assoc filename (local_files d) with
  | Some data => ret data
  | None => raise IsADirectoryError
  end.

(** [file_to_upload.Upload(param={"http": http})]: the service stores a new
    entry and assigns its identifier. *)
Definition Upload (params : FileParams) (body : string) : M string :=
  record_call (FilesInsert params body) ;;;
  d <- get_remote ;;
  match fresh_ids d with
  | [] => raise ApiRequestError
  | fid :: rest =>
      let e := mkEntry fid (fp_title params) UPLOAD_MIME_TYPE
                       (service_parents d params) false (content_link fid) [] body in
      set_remote (mkDrive (root_id d) (entries d ++ [e]) rest) ;;;
      ret fid
  end.

Definition add_permission (p : Permission) (e : Entry) : Entry :=
  mkEntry (file_id e) (title e) (mimeType e) (parents e) (trashed e)
          (webContentLink e) (permissions e ++ [p]) (content e).

Fixpoint update_entry (fid : string) (f : Entry -> Entry) (l : list Entry) : list Entry :=
  match l with
  | [] => []
  | e :: l' => if file_id e =? fid then f e :: l' else e :: update_entry fid f l'
  end.

(** [file_to_upload.InsertPermission({...})]. *)
Definition InsertPermission (fid : string) (p : Permission) : M unit :=
  record_call (PermissionsInsert fid p) ;;;
  d <- get_remote ;;
  match lookup d fid with
  | None => raise ApiRequestError
  | Some _ =>
      set_remote (mkDrive (root_id d)
                          (update_entry (resolve d fid) (add_permission p) (entries d))
                          (fresh_ids d))
  end.

Definition anyone_reader : Permission := mkPermission "anyone" "anyone" "reader".

(** The dictionary [file_params] built by [upload]. *)
Definition file_params (filename : string) (parent_folder : option string) : FileParams :=
  mkFileParams
    (last (split slash filename) "")
    (if truthy parent_folder
     then [mkFileLink "drive#fileLink"
                      (match parent_folder with Some p => p | None => "" end)]
     else []).

Definition missing_message (filename : string) : string :=
  "Specified filename " ++ filename ++ " does not exist!".

Definition upload (filename : string) (parent_folder : option string) : M unit :=
  d <- get_disk ;;
  if negb (exists_path d filename) then
    print (missing_message filename)
  else
    let params := file_params filename parent_folder in
    body <- SetContentFile filename ;;
    fid <- Upload params body ;;
    file_to_upload <- FetchMetadata fid ;;
    InsertPermission fid anyone_reader ;;;
    print ("Get it with: " ++ file_id file_to_upload) ;;;
    print ("URL: " ++ webContentLink file_to_upload).

(** ** [download_file] *)

(** [dl_file.GetContentFile(filename)]. *)
Definition GetContentFile (dl_file : Entry) (filename : string) : M unit :=
  record_call (MediaDownload (file_id dl_file)) ;;;
  write_file filename (content dl_file).

(** The [while] loop of [download_file]: [folder] is the folder fetched
    last, [folder_name] the path built so far.  The condition reads
    [folder.metadata['parents'][0]['isRoot']]. *)
Fixpoint ancestor_walk (fuel : nat) (folder : Entry) (folder_name : string) : M string :=
  match parents folder with
  | [] => raise IndexError
  | p :: _ =>
      if negb (isRoot p) then
        match fuel with
        | 0 => out_of_fuel
        | S n =>
            folder' <- FetchMetadata (ref_id p) ;;
            ancestor_walk n folder' (path_join (title folder') folder_name)
        end
      else ret folder_name
  end.

(** The part of the loop body of [download_file] that handles an entry that
    is not a folder (lines 82-95). *)
Definition download_entry (fuel : nat) (dl_file : Entry) : M unit :=
  let filename := title dl_file in
  match parents dl_file with
  | [] => raise IndexError
  | p :: _ =>
      folder <- FetchMetadata (ref_id p) ;;
      folder_name <- ancestor_walk fuel folder (title folder) ;;
      d <- get_disk ;;
      (if negb (isdir d folder_name) then makedirs folder_name else ret tt) ;;;
      let filename := path_join folder_name filename in
      print ("Downloading " ++ filename ++ " -> " ++ filename) ;;;
      GetContentFile dl_file filename ;;;
      print ("Downloaded " ++ filename ++ "!")
  end.

Definition recursion_notice (file : Entry) : string :=
  title file ++ " is a folder, downloading recursively".

Fixpoint download_file (fuel : nat) (fid : string) : M unit :=
  match fuel with
  | 0 => out_of_fuel
  | S n =>
      file <- FetchMetadata fid ;;
      files_to_dl <-
        (if mimeType file =? FOLDER_MIME_TYPE then
           print (recursion_notice file) ;;;
           list_files fid true false
         else ret [file]) ;;
      for_each files_to_dl (fun dl_file =>
        dl_file <- FetchMetadata (file_id dl_file) ;;
        if mimeType dl_file =? FOLDER_MIME_TYPE
        then download_file n (file_id dl_file)
        else download_entry n dl_file)
  end.

(** ** [main] *)

(** The namespace returned by [parser.parse_args()]. *)
Record Args := mkArgs {
  arg_list_files : option string;
  arg_upload_file : option string;
  arg_parent_folder : option string;
  arg_download_file : option string
}.

Definition arg_value (o : option string) : string :=
  match o with Some s => s | None => "" end.

(** Lines 104-117: the session bootstrap. *)
Definition LoadCredentialsFile : M unit :=
  g <- get_gauth ;;
  set_gauth (mkGoogleAuth (creds_file g) (creds_file g)
                          (access_token_expired g) (cli_credentials g)).

Definition do_CommandLineAuth : M unit :=
  record_call CommandLineAuth ;;;
  g <- get_gauth ;;
  set_gauth (mkGoogleAuth (creds_file g) (Some (cli_credentials g))
                          false (cli_credentials g)).

Definition do_Refresh : M unit :=
  record_call Refresh ;;;
  g <- get_gauth ;;
  set_gauth (mkGoogleAuth (creds_file g) (credentials g) false (cli_credentials g)).

Definition do_Authorize : M unit := record_call Authorize.

Definition SaveCredentialsFile : M unit :=
  g <- get_gauth ;;
  set_gauth (mkGoogleAuth (credentials g) (credentials g)
                          (access_token_expired g) (cli_credentials g)).

Definition bootstrap : M unit :=
  LoadCredentialsFile ;;;
  g <- get_gauth ;;
  (match credentials g with
   | None => do_CommandLineAuth
   | Some _ => if access_token_expired g then do_Refresh else do_Authorize
   end) ;;;
  SaveCredentialsFile.

Definition no_options_message : string := "No valid options provided!".

(** Lines 130-137: the dispatch on the parsed arguments. *)
Definition dispatch (fuel : nat) (args : Args) : M unit :=
  if truthy (arg_list_files args) then
    list_files (arg_value (arg_list_files args)) false true ;;; ret tt
  else if truthy (arg_upload_file args) then
    upload (arg_value (arg_upload_file args)) (arg_parent_folder args)
  else if truthy (arg_download_file args) then
    download_file fuel (arg_value (arg_download_file args))
  else
    print no_options_message.

Definition main (fuel : nat) (args : Args) : M unit :=
  bootstrap ;;; dispatch fuel args.

(** * Vocabulary of the properties *)

(** The lines the loop of [list_files] prints for a result list. *)
Definition printed_lines (skip_print skip_directory : bool) (l : list Entry) : list string :=
  if skip_print then []
  else map list_line (filter (fun e => negb (skip_directory && is_folder e)) l).

(** The one authentication request the bootstrap makes. *)
Definition auth_call (g : GoogleAuth) : Call :=
  match creds_file g with
  | None => CommandLineAuth
  | Some _ => if access_token_expired g then Refresh else Authorize
  end.

Definition is_auth_call (c : Call) : bool :=
  match c with
  | CommandLineAuth | Refresh | Authorize => true
  | _ => false
  end.

(** [no_sep s]: the string has no ['/']. *)
Fixpoint no_sep (s : string) : bool :=
  match s with
  | EmptyString => true
  | String c s' => negb (Ascii.eqb c slash) && no_sep s'
  end.

(** The base name of a path: what follows its last ['/'] (the whole path
    when it has none). *)
Definition is_basename (path base : string) : Prop :=
  no_sep base = true /\
  exists dir, path = (dir ++ base)%string /\ (dir = "" \/ endswith_sep dir = true).

(** The world after one more request. *)
Definition logged (c : Call) (w : World) : World :=
  mkWorld (remote w) (disk w) (stdout w) (log w ++ [c]) (gauth w).

(** [Visits d folder g]: starting the walk at [folder], the loop comes to
    hold [g] in its variable [folder]. *)
Inductive Visits (d : Drive) : Entry -> Entry -> Prop :=
| visits_here (folder : Entry) : Visits d folder folder
| visits_up (folder : Entry) (p : ParentRef) (rest : list ParentRef)
            (folder' g : Entry) :
    parents folder = p :: rest ->
    isRoot p = false ->
    lookup d (ref_id p) = Some folder' ->
    Visits d folder' g ->
    Visits d folder g.

(** The body of the [for] loop of [download_file], at recursion depth [n]. *)
Definition download_loop_body (n : nat) (dl_file : Entry) : M unit :=
  dl_file <- FetchMetadata (file_id dl_file) ;;
  if mimeType dl_file =? FOLDER_MIME_TYPE
  then download_file n (file_id dl_file)
  else download_entry n dl_file.

(** [os.path.join(a, *p)]. *)
Definition join_all (a : string) (p : list string) : string :=
  fold_left path_join p a.

(** [Above d folder us]: following first parents from [folder], a reference
    flagged root is reached; [us] are the titles of the folders fetched on
    the way, the topmost first. *)
Inductive Above (d : Drive) : Entry -> list string -> Prop :=
| above_top (folder : Entry) (p : ParentRef) (rest : list ParentRef) :
    parents folder = p :: rest ->
    isRoot p = true ->
    Above d folder []
| above_up (folder : Entry) (p : ParentRef) (rest : list ParentRef)
           (folder' : Entry) (us : list string) :
    parents folder = p :: rest ->
    isRoot p = false ->
    lookup d (ref_id p) = Some folder' ->
    Above d folder' us ->
    Above d folder (us ++ [title folder']).

(** The world after [n] more [FilesGet] requests, whatever they are: same
    drive, disk and output. *)
Definition same_but_log (w w' : World) : Prop :=
  remote w' = remote w /\ disk w' = disk w /\ stdout w' = stdout w
  /\ gauth w' = gauth w /\ exists l, log w' = log w ++ l.

Definition sample_root : Entry :=
  mkEntry "r0" "My Drive" FOLDER_MIME_TYPE [] false "" [] "".
Definition sample_A : Entry :=
  mkEntry "a" "A" FOLDER_MIME_TYPE [mkParentRef "r0" true] false "" [] "".
Definition sample_B : Entry :=
  mkEntry "b" "B" FOLDER_MIME_TYPE [mkParentRef "a" false] false "" [] "".
Definition sample_x : Entry :=
  mkEntry "f" "x.txt" "text/plain" [mkParentRef "b" false] false "" [] "hello".
Definition sample_y : Entry :=
  mkEntry "g" "y.txt" "text/plain" [mkParentRef "r0" true] false "" [] "top".

Definition sample_drive : Drive :=
  mkDrive "r0" [sample_root; sample_A; sample_B; sample_x; sample_y] ["n1"; "n2"].

Definition sample_world : World :=
  mkWorld sample_drive (mkDisk [("docs/n.txt", "data")] ["docs"]) [] []
          (mkGoogleAuth None None false "token").

(** The entry with every parent reference but the first removed. *)
Definition first_parent_only (e : Entry) : Entry :=
  mkEntry (file_id e) (title e) (mimeType e) (firstn 1 (parents e)) (trashed e)
          (webContentLink e) (permissions e) (content e).

Definition drop_other_parents (d : Drive) : Drive :=
  mkDrive (root_id d) (map first_parent_only (entries d)) (fresh_ids d).

Definition erase (w : World) : World :=
  mkWorld (drop_other_parents (remote w)) (disk w) (stdout w) (log w) (gauth w).

Definition erase_res {A B} (f : A -> B) (r : Res A) : Res B :=
  match r with
  | Ret a w => Ret (f a) (erase w)
  | Raise e w => Raise e (erase w)
  | OutOfFuel => OutOfFuel
  end.

(** The local files a run leaves on the disk. *)
Definition files_written {A} (r : Res A) : option (list (string * string)) :=
  option_map (fun w => local_files (disk w)) (final r).

Definition keeps_remote {A} (m : M A) : Prop :=
  forall w w', final (m w) = Some w' -> remote w' = remote w.

(** The entry the service stores for an upload, once the permission is set. *)
Definition uploaded_entry (d : Drive) (fid filename : string)
           (parent_folder : option string) (data : string) : Entry :=
  mkEntry fid (last (split slash filename) "") UPLOAD_MIME_TYPE
          (service_parents d (file_params filename parent_folder)) false
          (content_link fid) [anyone_reader] data.

(** A drive where one file has two parents. *)
Definition multi_A : Entry :=
  mkEntry "a" "A" FOLDER_MIME_TYPE [mkParentRef "r0" true] false "" [] "".
Definition multi_B : Entry :=
  mkEntry "b" "B" FOLDER_MIME_TYPE [mkParentRef "r0" true] false "" [] "".
Definition multi_x : Entry :=
  mkEntry "f" "x.txt" "text/plain" [mkParentRef "a" false; mkParentRef "b" false]
          false "" [] "hello".

Definition multi_world : World :=
  mkWorld (mkDrive "r0" [sample_root; multi_A; multi_B; multi_x] [])
          (mkDisk [] []) [] [] (mkGoogleAuth None None false "token").

(** The claim as it is stated: erasing every parent reference but the first
    changes nothing of what [download_file] writes. *)
Definition further_parents_have_no_effect : Prop :=
  forall fuel fid w,
    files_written (download_file fuel fid (erase w))
    = files_written (download_file fuel fid w).

(** The folders [download_file fuel fid] asks the Lister about on drive [d]:
    [fid] itself when it is a folder, and those of the recursive calls, made
    for the entries of the loop that are re-fetched as folders. *)
Fixpoint listed_folders (fuel : nat) (d : Drive) (fid : string) : list string :=
  match fuel with
  | 0 => []
  | S n =>
      match lookup d fid with
      | None => []
      | Some file =>
          (if mimeType file =? FOLDER_MIME_TYPE then [fid] else [])
          ++ flat_map
               (fun dl_file =>
                  match lookup d (file_id dl_file) with
                  | Some a =>
                      if mimeType a =? FOLDER_MIME_TYPE
                      then listed_folders n d (file_id a)
                      else []
                  | None => []
                  end)
               (if mimeType file =? FOLDER_MIME_TYPE then children d fid else [file])
      end
  end.

(** The Lister answers alike for folder [g] on the drive and on the drive
    with the further parent references erased. *)
Definition same_listing (d : Drive) (g : string) : Prop :=
  children (drop_other_parents d) g = map first_parent_only (children d g).

(** ** Vocabulary of the further properties *)

(** The requests that only read the drive. *)
Definition is_read_call (c : Call) : bool :=
  match c with
  | FilesGet _ | FilesList _ | MediaDownload _ => true
  | _ => false
  end.

(** The lines [download_file] prints itself: the recursion notice and the
    two progress lines of a file. *)
Definition is_download_line (s : string) : Prop :=
  (exists e, s = recursion_notice e)
  \/ (exists p, s = ("Downloading " ++ p ++ " -> " ++ p)%string)
  \/ (exists p, s = ("Downloaded " ++ p ++ "!")%string).

(** [only_reads w w']: from [w] to [w'] the drive and the session are
    unchanged, the requests added only read, the lines added are download
    lines, and the disk only gained files and directories. *)
Definition only_reads (w w' : World) : Prop :=
  remote w' = remote w
  /\ gauth w' = gauth w
  /\ (exists l, log w' = log w ++ l /\ forallb is_read_call l = true)
  /\ (exists o, stdout w' = stdout w ++ o /\ Forall is_download_line o)
  /\ (exists fs, local_files (disk w') = fs ++ local_files (disk w))
  /\ (exists ds, local_dirs (disk w') = ds ++ local_dirs (disk w)).

Definition reads_only {A} (m : M A) : Prop :=
  forall w w', final (m w) = Some w' -> only_reads w w'.

(** [os.path.join] applied to a list of components. *)
Definition join_titles (ts : list string) : string :=
  match ts with
  | [] => ""
  | t :: ts' => join_all t ts'
  end.

(** The two lines printed around the download of one file. *)
Definition progress_lines (p : string) : list string :=
  [("Downloading " ++ p ++ " -> " ++ p)%string; ("Downloaded " ++ p ++ "!")%string].

(** The directories after [if not os.path.isdir(dir): os.makedirs(dir)]. *)
Definition with_dir (d : Disk) (dir : string) : list string :=
  if isdir d dir then local_dirs d else dir :: local_dirs d.

(** [Mirrors d l fs]: what the loop of [download_file] writes for the listed
    entries [l] of drive [d], in the order of writing.  A file is stored under
    its identifier and its first parent has a chain to a root-flagged
    reference; a folder is stored under its identifier and its children are
    mirrored in turn. *)
Inductive Mirrors (d : Drive) : list Entry -> list (string * string) -> Prop :=
| mirrors_done : Mirrors d [] []
| mirrors_file (x file folder : Entry) (p : ParentRef) (rest : list ParentRef)
               (us : list string) (l : list Entry) (fs : list (string * string)) :
    lookup d (file_id x) = Some file ->
    mimeType file <> FOLDER_MIME_TYPE ->
    parents file = p :: rest ->
    lookup d (ref_id p) = Some folder ->
    Above d folder us ->
    Mirrors d l fs ->
    Mirrors d (x :: l)
            ((join_titles (us ++ [title folder; title file]), content file) :: fs)
| mirrors_folder (x sub : Entry) (l : list Entry) (fs1 fs2 : list (string * string)) :
    lookup d (file_id x) = Some sub ->
    mimeType sub = FOLDER_MIME_TYPE ->
    lookup d (file_id sub) = Some sub ->
    Mirrors d (children d (file_id sub)) fs1 ->
    Mirrors d l fs2 ->
    Mirrors d (x :: l) (fs1 ++ fs2).

(** [preserves proj m]: whatever its outcome, [m] leaves the component [proj]
    of the world as it was. *)
Definition preserves {A X} (proj : World -> X) (m : M A) : Prop :=
  forall w w', final (m w) = Some w' -> proj w' = proj w.

(** A drive with an empty folder and a file whose title is an absolute
    path. *)
Definition edge_A : Entry :=
  mkEntry "a" "A" FOLDER_MIME_TYPE [mkParentRef "r0" true] false "" [] "".
Definition edge_E : Entry :=
  mkEntry "e" "Empty" FOLDER_MIME_TYPE [mkParentRef "r0" true] false "" [] "".
Definition edge_abs : Entry :=
  mkEntry "v" "/tmp/evil" "text/plain" [mkParentRef "a" false] false "" [] "payload".

Definition edge_world : World :=
  mkWorld (mkDrive "r0" [sample_root; edge_A; edge_E; edge_abs] [])
          (mkDisk [] []) [] [] (mkGoogleAuth (Some "cached") None true "token").

(** * Properties *)

(** ** The monad *)

Lemma bind_Ret {A B} (m : M A) (k : A -> M B) (w w' : World) (a : A) :
  m w = Ret a w' -> bind m k w = k a w'.
Proof. intros H. unfold bind. now rewrite H. Qed.

Lemma bind_Raise {A B} (m : M A) (k : A -> M B) (w w' : World) (e : Exn) :
  m w = Raise e w' -> bind m k w = Raise e w'.
Proof. intros H. unfold bind. now rewrite H. Qed.

Lemma bind_inv_Ret {A B} (m : M A) (k : A -> M B) (w w2 : World) (b : B) :
  bind m k w = Ret b w2 ->
  exists a w1, m w = Ret a w1 /\ k a w1 = Ret b w2.
Proof.
  unfold bind. destruct (m w) as [a w1 | e w1 |]; intros H; try discriminate.
  now exists a, w1.
Qed.

Lemma world_eta (w : World) :
  mkWorld (remote w) (disk w) (stdout w) (log w) (gauth w) = w.
Proof. now destruct w. Qed.

(** ** The Lister *)

Lemma list_files_loop (skip_print skip_directory : bool) (l : list Entry) (w : World) :
  for_each l (list_files_body skip_print skip_directory) w
  = Ret tt (mkWorld (remote w) (disk w)
                    (stdout w ++ printed_lines skip_print skip_directory l)
                    (log w) (gauth w)).
Proof.
  revert w. induction l as [| e l IH]; intros w.
  - cbn. unfold ret, printed_lines. destruct skip_print; cbn; now rewrite app_nil_r, world_eta.
  - cbn [for_each]. unfold bind at 1.
    unfold list_files_body at 1, printed_lines, is_folder.
    destruct (skip_directory && (mimeType e =? FOLDER_MIME_TYPE)) eqn:Hskip.
    + unfold ret at 1. rewrite IH. unfold printed_lines, is_folder.
      destruct skip_print; cbn [filter negb]; rewrite ?Hskip; reflexivity.
    + destruct skip_print; cbn [negb].
      * unfold ret at 1. rewrite IH. reflexivity.
      * unfold print at 1. rewrite IH. cbn [remote disk stdout log gauth].
        unfold printed_lines, is_folder. cbn [filter]. rewrite Hskip. cbn [negb map].
        now rewrite <- app_assoc.
Qed.

Lemma list_files_run (parent_folder : string) (skip_print skip_directory : bool) (w : World) :
  list_files parent_folder skip_print skip_directory w
  = Ret (children (remote w) parent_folder)
        (mkWorld (remote w) (disk w)
                 (stdout w ++ printed_lines skip_print skip_directory
                                            (children (remote w) parent_folder))
                 (log w ++ [FilesList (list_query parent_folder)]) (gauth w)).
Proof.
  unfold list_files, ListFile_GetList, bind, record_call, get_remote, ret.
  cbn [remote]. rewrite list_files_loop. reflexivity.
Qed.



(** C4.  With folder-skipping enabled, the loop body prints nothing for an
    entry whose MIME type is the folder sentinel, and the lines [list_files]
    prints are those of the entries of the result that are not folders (none
    at all when printing is suppressed). *)
Theorem list_files_never_prints_folders
  (parent_folder : string) (skip_print : bool) (w : World) :
  (forall file, mimeType file = FOLDER_MIME_TYPE ->
                list_files_body skip_print true file w = Ret tt w)
  /\ exists w',
       list_files parent_folder skip_print true w
       = Ret (children (remote w) parent_folder) w'
       /\ stdout w'
          = stdout w ++
            (if skip_print then []
             else map list_line
                      (filter (fun e => negb (mimeType e =? FOLDER_MIME_TYPE))
                              (children (remote w) parent_folder))).
Proof.
  split.
  - intros file Hf. unfold list_files_body. rewrite Hf, String.eqb_refl. reflexivity.
  - eexists. split; [apply list_files_run |]. reflexivity.
Qed.

(** ** The session bootstrap *)

Lemma bootstrap_run (w : World) :
  exists g,
    bootstrap w
    = Ret tt (mkWorld (remote w) (disk w) (stdout w)
                      (log w ++ [auth_call (gauth w)]) g).
Proof.
  unfold bootstrap, LoadCredentialsFile, SaveCredentialsFile, auth_call.
  unfold bind, get_gauth, set_gauth. cbn.
  destruct (creds_file (gauth w)); cbn.
  - destruct (access_token_expired (gauth w)); cbn; eexists; reflexivity.
  - eexists; reflexivity.
Qed.

Lemma is_auth_call_auth_call (g : GoogleAuth) : is_auth_call (auth_call g) = true.
Proof.
  unfold auth_call. destruct (creds_file g); [destruct (access_token_expired g) |]; reflexivity.
Qed.

(** ** The Uploader on a missing path *)

Lemma upload_missing (filename : string) (parent_folder : option string) (w : World) :
  exists_path (disk w) filename = false ->
  upload filename parent_folder w
  = Ret tt (mkWorld (remote w) (disk w) (stdout w ++ [missing_message filename])
                    (log w) (gauth w)).
Proof.
  intros H. unfold upload, bind, get_disk. rewrite H. reflexivity.
Qed.

(** C2.  For a local path that does not exist, [upload] returns normally in
    the world it started in, except for the existence-failure message added
    to the output: the log of service calls, the remote drive and the disk
    are unchanged.  Run from [main], the process ends normally in the same
    way, the only request made being the one of the session bootstrap. *)
Theorem upload_missing_path_is_reported
  (filename : string) (parent_folder : option string) (w : World) :
  exists_path (disk w) filename = false ->
  upload filename parent_folder w
  = Ret tt (mkWorld (remote w) (disk w) (stdout w ++ [missing_message filename])
                    (log w) (gauth w))
  /\ forall fuel args,
       truthy (arg_list_files args) = false ->
       arg_upload_file args = Some filename ->
       filename <> "" ->
       exists w' c,
         main fuel args w = Ret tt w'
         /\ remote w' = remote w
         /\ disk w' = disk w
         /\ stdout w' = stdout w ++ [missing_message filename]
         /\ log w' = log w ++ [c] /\ is_auth_call c = true.
Proof.
  intros Hmissing. split; [now apply upload_missing |].
  intros fuel args Hlist Hup Hne.
  destruct (bootstrap_run w) as [g Hb].
  unfold main. rewrite (bind_Ret _ _ _ _ _ Hb).
  unfold dispatch. rewrite Hlist, Hup. cbn [truthy arg_value].
  apply String.eqb_neq in Hne. rewrite Hne. cbn [negb].
  rewrite upload_missing by exact Hmissing. cbn [remote disk stdout log gauth].
  do 2 eexists. repeat split. apply is_auth_call_auth_call.
Qed.

(** ** The dispatch of [main] *)

(** C9.  For every parsed argument namespace the dispatch of [main] acts on
    exactly one of four things, decided by the first option that is set (an
    option given with the empty string counts as not set): with a list
    option only the listing request is made, whatever the upload and
    download options are; without it and with an upload option the dispatch
    is the upload; without both and with a download option it is the
    download; and when none of the three is set it prints
    ["No valid options provided!"] and returns normally, having made no
    request and changed nothing else.  The dispatch is the last statement of
    [main]: once the bootstrap has returned, the outcome of [main] is the one
    of the dispatch. *)
Theorem main_acts_on_one_operation (fuel : nat) (args : Args) (w : World) :
  (truthy (arg_list_files args) = true ->
   exists w',
     dispatch fuel args w = Ret tt w'
     /\ log w' = log w ++ [FilesList (list_query (arg_value (arg_list_files args)))]
     /\ remote w' = remote w /\ disk w' = disk w)
  /\ (truthy (arg_list_files args) = false ->
      truthy (arg_upload_file args) = true ->
      dispatch fuel args w
      = upload (arg_value (arg_upload_file args)) (arg_parent_folder args) w)
  /\ (truthy (arg_list_files args) = false ->
      truthy (arg_upload_file args) = false ->
      truthy (arg_download_file args) = true ->
      dispatch fuel args w
      = download_file fuel (arg_value (arg_download_file args)) w)
  /\ (truthy (arg_list_files args) = false ->
      truthy (arg_upload_file args) = false ->
      truthy (arg_download_file args) = false ->
      dispatch fuel args w
      = Ret tt (mkWorld (remote w) (disk w) (stdout w ++ [no_options_message])
                        (log w) (gauth w)))
  /\ (forall w0, bootstrap w = Ret tt w0 -> main fuel args w = dispatch fuel args w0).
Proof.
  split; [| split; [| split; [| split]]].
  - intros Hl. unfold dispatch. rewrite Hl.
    unfold bind. rewrite list_files_run. unfold ret.
    eexists. repeat split.
  - intros Hl Hu. unfold dispatch. now rewrite Hl, Hu.
  - intros Hl Hu Hd. unfold dispatch. now rewrite Hl, Hu, Hd.
  - intros Hl Hu Hd. unfold dispatch. now rewrite Hl, Hu, Hd.
  - intros w0 Hb. unfold main. now rewrite (bind_Ret _ _ _ _ _ Hb).
Qed.

(** ** The record built by the Uploader *)

Lemma split_not_nil (sep : ascii) (s : string) : split sep s <> [].
Proof.
  destruct s as [| c s]; cbn; [discriminate |].
  destruct (Ascii.eqb c sep); [discriminate |].
  destruct (split sep s); discriminate.
Qed.

Lemma last_cons_not_nil {A} (x : A) (l : list A) (d : A) :
  l <> [] -> last (x :: l) d = last l d.
Proof. destruct l; [congruence | reflexivity]. Qed.

Lemma endswith_sep_cons (c : ascii) (s : string) :
  s <> "" -> endswith_sep (String c s) = endswith_sep s.
Proof. destruct s; [congruence | reflexivity]. Qed.

Lemma split_last_spec (s : string) :
  no_sep (last (split slash s) "") = true /\
  exists dir,
    s = (dir ++ last (split slash s) "")%string /\
    (dir = "" \/ endswith_sep dir = true) /\
    (dir = "" <-> tl (split slash s) = []).
Proof.
  induction s as [| c s (Hno & dir & Hs & Hdir & Hone)].
  - cbn. split; [reflexivity |]. exists "". cbn. intuition.
  - cbn [split]. destruct (Ascii.eqb c slash) eqn:Hc.
    + rewrite last_cons_not_nil by apply split_not_nil.
      split; [exact Hno |].
      exists (String c dir). cbn [append]. split; [now rewrite <- Hs |]. split.
      * right. destruct dir as [| c' dir'].
        -- cbn. exact Hc.
        -- rewrite endswith_sep_cons by discriminate.
           destruct Hdir as [Hd | Hd]; [discriminate | exact Hd].
      * cbn [tl]. split; [discriminate |]. intros H. now apply split_not_nil in H.
    + destruct (split slash s) as [| h t] eqn:Hsplit.
      * now apply split_not_nil in Hsplit.
      * destruct t as [| h' t'].
        -- cbn [last] in *. cbn [tl] in Hone.
           assert (Hd : dir = "") by now apply Hone.
           subst dir. cbn [append] in Hs. subst h.
           split; [cbn; now rewrite Hc, Hno |].
           exists "". cbn. intuition.
        -- rewrite last_cons_not_nil by discriminate.
           rewrite last_cons_not_nil in Hno, Hs by discriminate.
           split; [exact Hno |].
           assert (Hd : dir <> "").
           { intros Hd. apply Hone in Hd. discriminate. }
           exists (String c dir). cbn [append]. split; [now rewrite <- Hs |]. split.
           ++ right. rewrite endswith_sep_cons by exact Hd.
              destruct Hdir as [Hd' | Hd']; [contradiction | exact Hd'].
           ++ cbn [tl]. split; discriminate.
Qed.

Lemma split_last_is_basename (filename : string) :
  is_basename filename (last (split slash filename) "").
Proof.
  destruct (split_last_spec filename) as (Hno & dir & Hs & Hdir & _).
  split; [exact Hno |]. now exists dir.
Qed.

(** The base name of a path is unique. *)
Lemma no_sep_app_endswith (dir base dir' base' : string) :
  no_sep base = true -> no_sep base' = true ->
  (dir = "" \/ endswith_sep dir = true) ->
  (dir' = "" \/ endswith_sep dir' = true) ->
  (dir ++ base)%string = (dir' ++ base')%string -> base = base'.
Proof.
  revert dir'. induction dir as [| c dir IH]; intros dir' Hb Hb' Hd Hd' Heq.
  - cbn in Heq. destruct dir' as [| c' dir']; [exact Heq |].
    exfalso. subst base. clear Hd Hb'.
    destruct Hd' as [Hd' | Hd']; [discriminate |].
    revert c' Hb Hd'. induction dir' as [| c2 dir' IH']; intros c' Hb Hd'.
    + cbn in Hb, Hd'. rewrite Hd' in Hb. discriminate.
    + cbn [append no_sep] in Hb. apply andb_true_iff in Hb as [_ Hb].
      rewrite endswith_sep_cons in Hd' by discriminate.
      now apply (IH' c2).
  - destruct dir' as [| c' dir'].
    + cbn in Heq. exfalso. subst base'. clear Hd' Hb IH.
      destruct Hd as [Hd | Hd]; [discriminate |].
      revert c Hb' Hd. induction dir as [| c2 dir IH']; intros c Hb' Hd.
      * cbn in Hb', Hd. rewrite Hd in Hb'. discriminate.
      * cbn [append no_sep] in Hb'. apply andb_true_iff in Hb' as [_ Hb'].
        rewrite endswith_sep_cons in Hd by discriminate.
        now apply (IH' c2).
    + cbn [append] in Heq. injection Heq as _ Heq.
      apply (IH dir'); trivial.
      * destruct dir as [| c2 dir]; [now left | right].
        destruct Hd as [Hd | Hd]; [discriminate |].
        now rewrite endswith_sep_cons in Hd by discriminate.
      * destruct dir' as [| c2 dir']; [now left | right].
        destruct Hd' as [Hd' | Hd']; [discriminate |].
        now rewrite endswith_sep_cons in Hd' by discriminate.
Qed.

Lemma is_basename_unique (path base base' : string) :
  is_basename path base -> is_basename path base' -> base = base'.
Proof.
  intros (Hb & dir & Hp & Hd) (Hb' & dir' & Hp' & Hd').
  apply (no_sep_app_endswith dir base dir' base'); trivial. congruence.
Qed.

(** C8.  For an existing local file, the first request of [upload] is the
    insertion of the record [file_params] with the file's content.  The title
    of the record is the base name of the path.  With a parent folder
    identifier (a non-empty string) the record has exactly one parent link,
    of kind ["drive#fileLink"] and with that identifier; with none (or with
    the empty string, which Python takes as false) it has no parent link. *)
Theorem upload_builds_file_record
  (filename : string) (parent_folder : option string) (data : string) (w : World) :
  assoc filename (local_files (disk w)) = Some data ->
  (exists w' rest,
     final (upload filename parent_folder w) = Some w'
     /\ log w' = log w ++ FilesInsert (file_params filename parent_folder) data :: rest)
  /\ is_basename filename (fp_title (file_params filename parent_folder))
  /\ fp_title (file_params filename parent_folder) = last (split slash filename) ""
  /\ (forall p, parent_folder = Some p -> p <> "" ->
                fp_parents (file_params filename parent_folder)
                = [mkFileLink "drive#fileLink" p])
  /\ (parent_folder = None -> fp_parents (file_params filename parent_folder) = [])
  /\ (parent_folder = Some "" -> fp_parents (file_params filename parent_folder) = []).
Proof.
  intros Hfile. split; [| split; [| split; [| split; [| split]]]].
  - unfold upload, bind at 1, get_disk, exists_path. rewrite Hfile. cbn [negb].
    unfold bind at 1, SetContentFile, bind at 1, get_disk. rewrite Hfile. unfold ret at 1.
    unfold bind at 1, Upload, bind at 1, record_call, bind at 1, get_remote.
    cbn [remote disk stdout log gauth].
    destruct (fresh_ids (remote w)) as [| fid ids].
    + unfold raise. cbn. do 2 eexists. split; reflexivity.
    + unfold bind at 1, set_remote, ret at 1. cbn [remote disk stdout log gauth].
      unfold bind at 1, FetchMetadata, bind at 1, record_call, bind at 1, get_remote.
      cbn [remote disk stdout log gauth].
      match goal with |- context [lookup ?d fid] => destruct (lookup d fid) as [e |] eqn:He end.
      * unfold ret at 1. unfold bind at 1, InsertPermission, bind at 1, record_call,
          bind at 1, get_remote. cbn [remote disk stdout log gauth]. rewrite He.
        unfold set_remote, bind, print. cbn [remote disk stdout log gauth final].
        do 2 eexists. split; [reflexivity |]. rewrite <- !app_assoc. reflexivity.
      * unfold raise. cbn [final log]. do 2 eexists. split; [reflexivity |].
        rewrite <- !app_assoc. reflexivity.
  - apply split_last_is_basename.
  - reflexivity.
  - intros p -> Hp. unfold file_params. cbn [truthy fp_parents].
    apply String.eqb_neq in Hp. now rewrite Hp.
  - intros ->. reflexivity.
  - intros ->. reflexivity.
Qed.

(** ** The Downloader: fetching and the ancestor walk *)

Lemma FetchMetadata_found (fid : string) (e : Entry) (w : World) :
  lookup (remote w) fid = Some e ->
  FetchMetadata fid w = Ret e (logged (FilesGet fid) w).
Proof.
  intros H. unfold FetchMetadata, bind, record_call, get_remote.
  cbn [remote]. now rewrite H.
Qed.

Lemma FetchMetadata_missing (fid : string) (w : World) :
  lookup (remote w) fid = None ->
  FetchMetadata fid w = Raise ApiRequestError (logged (FilesGet fid) w).
Proof.
  intros H. unfold FetchMetadata, bind, record_call, get_remote.
  cbn [remote]. now rewrite H.
Qed.

Lemma FetchMetadata_inv (fid : string) (e : Entry) (w w' : World) :
  FetchMetadata fid w = Ret e w' ->
  lookup (remote w) fid = Some e /\ w' = logged (FilesGet fid) w.
Proof.
  destruct (lookup (remote w) fid) as [e' |] eqn:H.
  - rewrite (FetchMetadata_found _ _ _ H). intros [= -> <-]. now split.
  - rewrite (FetchMetadata_missing _ _ H). discriminate.
Qed.

Lemma ancestor_walk_empty_parents (fuel : nat) (folder : Entry) (name : string) (w : World) :
  parents folder = [] -> ancestor_walk fuel folder name w = Raise IndexError w.
Proof. intros H. destruct fuel; cbn; now rewrite H. Qed.

Lemma ancestor_walk_step (fuel : nat) (folder folder' : Entry) (p : ParentRef)
      (rest : list ParentRef) (name : string) (w : World) :
  parents folder = p :: rest ->
  isRoot p = false ->
  lookup (remote w) (ref_id p) = Some folder' ->
  ancestor_walk (S fuel) folder name w
  = ancestor_walk fuel folder' (path_join (title folder') name)
                  (logged (FilesGet (ref_id p)) w).
Proof.
  intros Hp Hr Hl. cbn [ancestor_walk]. rewrite Hp, Hr. cbn [negb].
  now rewrite (bind_Ret _ _ _ _ _ (FetchMetadata_found _ _ _ Hl)).
Qed.

Lemma ancestor_walk_stop (fuel : nat) (folder : Entry) (p : ParentRef)
      (rest : list ParentRef) (name : string) (w : World) :
  parents folder = p :: rest ->
  isRoot p = true ->
  ancestor_walk fuel folder name w = Ret name w.
Proof. intros Hp Hr. destruct fuel; cbn; now rewrite Hp, Hr. Qed.

Lemma ancestor_walk_visits (d : Drive) (folder g : Entry) :
  Visits d folder g ->
  forall fuel name w path w',
    remote w = d ->
    ancestor_walk fuel folder name w = Ret path w' ->
    parents g <> [].
Proof.
  induction 1 as [folder | folder p rest folder' g Hp Hr Hl Hv IH];
    intros fuel name w path w' Hd Hrun.
  - intros Hnil. rewrite ancestor_walk_empty_parents in Hrun by exact Hnil. discriminate.
  - destruct fuel as [| fuel].
    + cbn in Hrun. rewrite Hp, Hr in Hrun. discriminate.
    + subst d. rewrite (ancestor_walk_step _ _ _ _ _ _ _ Hp Hr Hl) in Hrun.
      now apply (IH _ _ (logged (FilesGet (ref_id p)) w) _ _ eq_refl Hrun).
Qed.

Lemma ancestor_walk_raises (d : Drive) (folder g : Entry) :
  Visits d folder g ->
  parents g = [] ->
  exists fuel0, forall fuel name w,
    remote w = d -> fuel0 <= fuel ->
    exists w', ancestor_walk fuel folder name w = Raise IndexError w'.
Proof.
  induction 1 as [folder | folder p rest folder' g Hp Hr Hl Hv IH]; intros Hnil.
  - exists 0. intros fuel name w _ _. exists w. now apply ancestor_walk_empty_parents.
  - destruct (IH Hnil) as [fuel0 Hfuel]. exists (S fuel0).
    intros fuel name w Hd Hle. destruct fuel as [| fuel]; [lia |]. subst d.
    rewrite (ancestor_walk_step _ _ _ _ _ _ _ Hp Hr Hl).
    apply Hfuel; [reflexivity | lia].
Qed.

Lemma download_entry_start (fuel : nat) (dl_file folder : Entry) (p : ParentRef)
      (rest : list ParentRef) (w : World) :
  parents dl_file = p :: rest ->
  lookup (remote w) (ref_id p) = Some folder ->
  download_entry fuel dl_file w
  = (folder_name <- ancestor_walk fuel folder (title folder) ;;
     d <- get_disk ;;
     (if negb (isdir d folder_name) then makedirs folder_name else ret tt) ;;;
     print ("Downloading " ++ path_join folder_name (title dl_file) ++ " -> "
            ++ path_join folder_name (title dl_file)) ;;;
     GetContentFile dl_file (path_join folder_name (title dl_file)) ;;;
     print ("Downloaded " ++ path_join folder_name (title dl_file) ++ "!"))
      (logged (FilesGet (ref_id p)) w).
Proof.
  intros Hp Hl. unfold download_entry. rewrite Hp.
  now rewrite (bind_Ret _ _ _ _ _ (FetchMetadata_found _ _ _ Hl)).
Qed.

(** C10.  The walk indexes [parents] without a guard.  A successful run of
    the path computation for an entry implies that the entry has a parent,
    that this parent is stored, and that every folder the loop visits from it
    (the last one included) has a non-empty parent list.  An empty list
    raises IndexError: on the entry itself, on the folder the loop condition
    is tested on (whatever the fuel), and on a folder reached later.  For an
    entry whose first parent is a root folder with no parents, the root's
    list is read and IndexError is raised, whatever the root flag of the
    entry's own parent reference says. *)
Theorem walk_indexes_parents_unguarded (fuel : nat) (dl_file : Entry) (w : World) :
  (forall w',
      download_entry fuel dl_file w = Ret tt w' ->
      exists p rest folder,
        parents dl_file = p :: rest
        /\ lookup (remote w) (ref_id p) = Some folder
        /\ forall g, Visits (remote w) folder g -> parents g <> [])
  /\ (parents dl_file = [] -> download_entry fuel dl_file w = Raise IndexError w)
  /\ (forall folder name,
         parents folder = [] ->
         ancestor_walk fuel folder name w = Raise IndexError w)
  /\ (forall folder g,
         Visits (remote w) folder g -> parents g = [] ->
         exists fuel0, forall fuel' name,
           fuel0 <= fuel' ->
           exists w', ancestor_walk fuel' folder name w = Raise IndexError w')
  /\ (forall p rest root,
         parents dl_file = p :: rest ->
         lookup (remote w) (ref_id p) = Some root ->
         parents root = [] ->
         download_entry fuel dl_file w
         = Raise IndexError (logged (FilesGet (ref_id p)) w)).
Proof.
  split; [| split; [| split; [| split]]].
  - intros w' Hrun.
    destruct (parents dl_file) as [| p rest] eqn:Hp.
    { unfold download_entry in Hrun. rewrite Hp in Hrun. discriminate. }
    destruct (lookup (remote w) (ref_id p)) as [folder |] eqn:Hl.
    2:{ unfold download_entry in Hrun. rewrite Hp in Hrun.
        rewrite (bind_Raise _ _ _ _ _ (FetchMetadata_missing _ _ Hl)) in Hrun.
        discriminate. }
    exists p, rest, folder. split; [reflexivity | split; [exact Hl |]].
    intros g Hv.
    rewrite (download_entry_start _ _ _ _ _ _ Hp Hl) in Hrun.
    apply bind_inv_Ret in Hrun as (name & w1 & Hwalk & _).
    eapply ancestor_walk_visits; [exact Hv | | exact Hwalk]. reflexivity.
  - intros Hp. unfold download_entry. now rewrite Hp.
  - intros folder name Hp. now apply ancestor_walk_empty_parents.
  - intros folder g Hv Hnil.
    destruct (ancestor_walk_raises _ _ _ Hv Hnil) as [fuel0 H].
    exists fuel0. intros fuel' name Hle. now apply H.
  - intros p rest root Hp Hl Hnil.
    rewrite (download_entry_start _ _ _ _ _ _ Hp Hl).
    apply bind_Raise. now apply ancestor_walk_empty_parents.
Qed.

(** ** The Downloader: folders and single entries *)

Lemma download_file_unfold (n : nat) (fid : string) :
  download_file (S n) fid
  = (file <- FetchMetadata fid ;;
     files_to_dl <-
       (if mimeType file =? FOLDER_MIME_TYPE then
          print (recursion_notice file) ;;; list_files fid true false
        else ret [file]) ;;
     for_each files_to_dl (download_loop_body n)).
Proof. reflexivity. Qed.

Lemma download_file_folder (n : nat) (fid : string) (file : Entry) (w : World) :
  lookup (remote w) fid = Some file ->
  mimeType file = FOLDER_MIME_TYPE ->
  download_file (S n) fid w
  = for_each (children (remote w) fid) (download_loop_body n)
             (mkWorld (remote w) (disk w) (stdout w ++ [recursion_notice file])
                      (log w ++ [FilesGet fid; FilesList (list_query fid)]) (gauth w)).
Proof.
  intros Hl Hm. rewrite download_file_unfold.
  rewrite (bind_Ret _ _ _ _ _ (FetchMetadata_found _ _ _ Hl)).
  rewrite Hm, String.eqb_refl.
  unfold bind at 1. unfold bind at 1. unfold print at 1.
  rewrite list_files_run. unfold logged, printed_lines.
  cbn [remote disk stdout log gauth]. now rewrite app_nil_r, <- app_assoc.
Qed.

Lemma download_file_single (n : nat) (fid : string) (file : Entry) (w : World) :
  lookup (remote w) fid = Some file ->
  mimeType file <> FOLDER_MIME_TYPE ->
  download_file (S n) fid w
  = for_each [file] (download_loop_body n) (logged (FilesGet fid) w).
Proof.
  intros Hl Hm. rewrite download_file_unfold.
  rewrite (bind_Ret _ _ _ _ _ (FetchMetadata_found _ _ _ Hl)).
  apply String.eqb_neq in Hm. now rewrite Hm.
Qed.

Lemma download_loop_body_run (n : nat) (child child' : Entry) (w : World) :
  lookup (remote w) (file_id child) = Some child' ->
  download_loop_body n child w
  = (if mimeType child' =? FOLDER_MIME_TYPE
     then download_file n (file_id child')
     else download_entry n child') (logged (FilesGet (file_id child)) w).
Proof.
  intros Hl. unfold download_loop_body.
  now rewrite (bind_Ret _ _ _ _ _ (FetchMetadata_found _ _ _ Hl)).
Qed.

(** C5.  For an identifier whose fetched MIME type is the folder sentinel,
    [download_file] prints the recursion notice, calls [list_files] on the
    identifier with printing suppressed and folder-skipping disabled, which
    prints nothing and returns all children (sub-folders included), and runs
    the loop body on each of them.  For any other identifier it runs the loop
    body on the one-element list holding the fetched entry.  The loop body
    re-fetches its entry and recurses into [download_file] when it is a
    folder, and downloads it otherwise. *)
Theorem download_file_folder_or_single
  (n : nat) (fid : string) (file : Entry) (w : World) :
  lookup (remote w) fid = Some file ->
  (mimeType file = FOLDER_MIME_TYPE ->
   list_files fid true false
     (mkWorld (remote w) (disk w) (stdout w ++ [recursion_notice file])
              (log w ++ [FilesGet fid]) (gauth w))
   = Ret (children (remote w) fid)
         (mkWorld (remote w) (disk w) (stdout w ++ [recursion_notice file])
                  (log w ++ [FilesGet fid; FilesList (list_query fid)]) (gauth w))
   /\ download_file (S n) fid w
      = for_each (children (remote w) fid) (download_loop_body n)
                 (mkWorld (remote w) (disk w) (stdout w ++ [recursion_notice file])
                          (log w ++ [FilesGet fid; FilesList (list_query fid)])
                          (gauth w)))
  /\ (mimeType file <> FOLDER_MIME_TYPE ->
      download_file (S n) fid w
      = for_each [file] (download_loop_body n) (logged (FilesGet fid) w))
  /\ (forall child child' w2,
         lookup (remote w2) (file_id child) = Some child' ->
         (mimeType child' = FOLDER_MIME_TYPE ->
          download_loop_body n child w2
          = download_file n (file_id child') (logged (FilesGet (file_id child)) w2))
         /\ (mimeType child' <> FOLDER_MIME_TYPE ->
             download_loop_body n child w2
             = download_entry n child' (logged (FilesGet (file_id child)) w2))).
Proof.
  intros Hl. split; [| split].
  - intros Hm. split; [| now apply download_file_folder].
    rewrite list_files_run. unfold printed_lines.
    cbn [remote disk stdout log gauth]. now rewrite app_nil_r, <- app_assoc.
  - now apply download_file_single.
  - intros child child' w2 Hc. split; intros Hm.
    + rewrite (download_loop_body_run _ _ _ _ Hc). now rewrite Hm, String.eqb_refl.
    + rewrite (download_loop_body_run _ _ _ _ Hc).
      apply String.eqb_neq in Hm. now rewrite Hm.
Qed.

(** ** Joining paths *)

Section PathJoin.
Local Open Scope string_scope.

Lemma append_empty_r (s : string) : s ++ "" = s.
Proof. induction s as [| c s IH]; cbn; [reflexivity | now rewrite IH]. Qed.

Lemma append_assoc (a b c : string) : (a ++ b) ++ c = a ++ (b ++ c).
Proof. induction a as [| x a IH]; cbn; [reflexivity | now rewrite IH]. Qed.

Lemma startswith_sep_app (a b : string) :
  startswith_sep (a ++ b) = if a =? "" then startswith_sep b else startswith_sep a.
Proof. destruct a; reflexivity. Qed.

Lemma endswith_sep_app (a b : string) :
  endswith_sep (a ++ b) = if b =? "" then endswith_sep a else endswith_sep b.
Proof.
  induction a as [| x a IH].
  - cbn. destruct b; reflexivity.
  - destruct b as [| y b].
    + now rewrite append_empty_r.
    + cbn [append]. rewrite endswith_sep_cons.
      * exact IH.
      * destruct a; discriminate.
Qed.

Lemma append_eqb_empty (a b : string) :
  (a ++ b =? "") = (a =? "") && (b =? "").
Proof. destruct a; cbn; [destruct b |]; reflexivity. Qed.

Lemma path_join_assoc (a b c : string) :
  path_join a (path_join b c) = path_join (path_join a b) c.
Proof.
  unfold path_join.
  destruct (startswith_sep c) eqn:Hc; [now rewrite Hc |].
  destruct (startswith_sep b) eqn:Hb.
  { assert (Hne : (b =? "") = false) by (destruct b; [discriminate | reflexivity]).
    rewrite Hne. cbn [orb].
    destruct (endswith_sep b); rewrite startswith_sep_app, Hne, Hb; reflexivity. }
  destruct (b =? "") eqn:Heb.
  - apply String.eqb_eq in Heb. subst b. cbn [orb append]. rewrite Hc.
    destruct (a =? "") eqn:Hea.
    + apply String.eqb_eq in Hea. subst a. reflexivity.
    + cbn [orb]. destruct (endswith_sep a) eqn:Hend.
      * rewrite append_empty_r, Hea, Hend. reflexivity.
      * rewrite append_eqb_empty, Hea. cbn [andb orb].
        rewrite endswith_sep_app. cbn. now rewrite append_assoc.
  - cbn [orb].
    assert (HX : forall x, startswith_sep (b ++ x) = false).
    { intros x. now rewrite startswith_sep_app, Heb. }
    assert (HY : forall y, ((y ++ b =? "") || endswith_sep (y ++ b)) = endswith_sep b).
    { intros y. now rewrite append_eqb_empty, Heb, andb_false_r, endswith_sep_app, Heb. }
    destruct (endswith_sep b) eqn:Hendb; rewrite HX;
      destruct ((a =? "") || endswith_sep a).
    + rewrite HY. now rewrite append_assoc.
    + rewrite <- (append_assoc a "/" b), HY. now rewrite !append_assoc.
    + rewrite HY. now rewrite append_assoc.
    + rewrite <- (append_assoc a "/" b), HY. now rewrite !append_assoc.
Qed.

End PathJoin.

Lemma fold_right_path_join_last (us : list string) (y z : string) :
  path_join (fold_right path_join y us) z = fold_right path_join (path_join y z) us.
Proof.
  induction us as [| u us IH]; cbn; [reflexivity |].
  now rewrite <- path_join_assoc, IH.
Qed.

Lemma join_all_fold_right (x y : string) (us : list string) :
  join_all x (us ++ [y]) = fold_right path_join y (x :: us).
Proof.
  unfold join_all. revert x. induction us as [| u us IH]; intros x; cbn; [reflexivity |].
  rewrite IH. cbn. now rewrite path_join_assoc.
Qed.

(** ** The path the Downloader writes to *)

Lemma same_but_log_refl (w : World) : same_but_log w w.
Proof. repeat split. exists []. now rewrite app_nil_r. Qed.

Lemma same_but_log_logged (c : Call) (w w' : World) :
  same_but_log (logged c w) w' -> same_but_log w w'.
Proof.
  intros (Hr & Hd & Hs & Hg & l & Hl). cbn in *. repeat split; trivial.
  exists (c :: l). now rewrite Hl, <- app_assoc.
Qed.

Lemma ancestor_walk_above (d : Drive) (folder : Entry) (us : list string) :
  Above d folder us ->
  exists fuel0, forall fuel name w,
    remote w = d -> fuel0 <= fuel ->
    exists w',
      ancestor_walk fuel folder name w = Ret (fold_right path_join name us) w'
      /\ same_but_log w w'.
Proof.
  induction 1 as [folder p rest Hp Hr | folder p rest folder' us Hp Hr Hl Ha IH].
  - exists 0. intros fuel name w _ _. exists w. split.
    + now apply (ancestor_walk_stop _ _ p rest).
    + apply same_but_log_refl.
  - destruct IH as [fuel0 IH]. exists (S fuel0).
    intros fuel name w Hd Hle. destruct fuel as [| fuel]; [lia |]. subst d.
    rewrite (ancestor_walk_step _ _ _ _ _ _ _ Hp Hr Hl).
    destruct (IH fuel (path_join (title folder') name) (logged (FilesGet (ref_id p)) w))
      as (w' & Hrun & Hsame); [reflexivity | lia |].
    exists w'. split.
    + rewrite Hrun. now rewrite fold_right_app.
    + now apply same_but_log_logged in Hsame.
Qed.

(** A non-folder entry whose first parent is a stored folder with a chain to
    a root-flagged reference is written, once, to the joined titles of the
    chain, of the parent and of the entry. *)
Lemma download_entry_writes (dl_file folder : Entry) (p : ParentRef)
      (rest : list ParentRef) (us : list string) (w : World) :
  parents dl_file = p :: rest ->
  lookup (remote w) (ref_id p) = Some folder ->
  Above (remote w) folder us ->
  exists fuel0, forall fuel,
    fuel0 <= fuel ->
    exists w',
      download_entry fuel dl_file w = Ret tt w'
      /\ remote w' = remote w
      /\ local_files (disk w')
         = (fold_right path_join (title dl_file) (us ++ [title folder]),
            content dl_file) :: local_files (disk w).
Proof.
  intros Hp Hl Ha.
  destruct (ancestor_walk_above _ _ _ Ha) as [fuel0 Hwalk].
  exists fuel0. intros fuel Hle.
  destruct (Hwalk fuel (title folder) (logged (FilesGet (ref_id p)) w))
    as (w1 & Hrun & Hr & Hd & Hs & Hg & l & Hlog); [reflexivity | exact Hle |].
  rewrite (download_entry_start _ _ _ _ _ _ Hp Hl).
  rewrite (bind_Ret _ _ _ _ _ Hrun).
  rewrite fold_right_app. cbn [fold_right].
  rewrite <- fold_right_path_join_last.
  set (folder_name := fold_right path_join (title folder) us).
  unfold bind, get_disk, GetContentFile, write_file, makedirs, record_call, bind, get_disk,
    set_disk, print, ret.
  destruct (negb (isdir (disk w1) folder_name)); cbn [remote disk stdout log gauth local_files];
    eexists; (split; [reflexivity |]); cbn [remote disk stdout log gauth local_files];
    rewrite Hr, Hd; split; reflexivity.
Qed.

Lemma download_file_writes (fid : string) (file folder : Entry) (p : ParentRef)
      (rest : list ParentRef) (us : list string) (w : World) :
  lookup (remote w) fid = Some file ->
  mimeType file <> FOLDER_MIME_TYPE ->
  lookup (remote w) (file_id file) = Some file ->
  parents file = p :: rest ->
  lookup (remote w) (ref_id p) = Some folder ->
  Above (remote w) folder us ->
  exists fuel0, forall fuel,
    fuel0 <= fuel ->
    exists w',
      download_file fuel fid w = Ret tt w'
      /\ remote w' = remote w
      /\ local_files (disk w')
         = (fold_right path_join (title file) (us ++ [title folder]), content file)
             :: local_files (disk w).
Proof.
  intros Hl Hm Hself Hp Hf Ha.
  set (w1 := logged (FilesGet (file_id file)) (logged (FilesGet fid) w)).
  destruct (download_entry_writes file folder p rest us w1 Hp Hf Ha) as [fuel0 Hrun].
  exists (S fuel0). intros fuel Hle. destruct fuel as [| n]; [lia |].
  destruct (Hrun n) as (w' & Hw' & Hr & Hfiles); [lia |].
  exists w'. split; [| split; [exact Hr | exact Hfiles]].
  rewrite (download_file_single _ _ _ _ Hl Hm). cbn [for_each].
  unfold bind at 1.
  rewrite (download_loop_body_run n file file (logged (FilesGet fid) w) Hself).
  apply String.eqb_neq in Hm. rewrite Hm. fold w1. rewrite Hw'. reflexivity.
Qed.

(** An entry that sits directly in a root folder with no parents cannot be
    downloaded: the walk starts at the root and indexes its empty list. *)
Lemma download_file_root_child (n : nat) (fid : string) (file root : Entry)
      (p : ParentRef) (rest : list ParentRef) (w : World) :
  lookup (remote w) fid = Some file ->
  mimeType file <> FOLDER_MIME_TYPE ->
  lookup (remote w) (file_id file) = Some file ->
  parents file = p :: rest ->
  lookup (remote w) (ref_id p) = Some root ->
  parents root = [] ->
  download_file (S n) fid w
  = Raise IndexError
          (logged (FilesGet (ref_id p))
                  (logged (FilesGet (file_id file)) (logged (FilesGet fid) w))).
Proof.
  intros Hl Hm Hself Hp Hr Hnil.
  rewrite (download_file_single _ _ _ _ Hl Hm). cbn [for_each].
  apply bind_Raise.
  rewrite (download_loop_body_run n file file (logged (FilesGet fid) w) Hself).
  apply String.eqb_neq in Hm. rewrite Hm. cbv iota.
  rewrite (download_entry_start n file root p rest
             (logged (FilesGet (file_id file)) (logged (FilesGet fid) w)) Hp Hr).
  apply bind_Raise. now apply ancestor_walk_empty_parents.
Qed.

(** ** Entries directly under the root *)

(** C1 (the code departs from the claim).  The file ["g"] of the sample drive
    is not a folder and its first parent reference is flagged root, so the
    claim asks for one local file at ["y.txt"].  [download_file] raises
    IndexError instead and writes no file: the walk takes the root folder as
    the first ancestor and indexes its empty parent list. *)
Theorem download_file_directly_under_root :
  forall n,
    lookup (remote sample_world) "g" = Some sample_y
    /\ mimeType sample_y <> FOLDER_MIME_TYPE
    /\ (exists p rest, parents sample_y = p :: rest /\ isRoot p = true)
    /\ exists w',
         download_file (S n) "g" sample_world = Raise IndexError w'
         /\ local_files (disk w') = local_files (disk sample_world).
Proof.
  intros n. split; [reflexivity |]. split; [discriminate |]. split.
  - do 2 eexists. split; reflexivity.
  - eexists. split.
    + apply (download_file_root_child n "g" sample_y sample_root
               (mkParentRef "r0" true) []); try reflexivity. discriminate.
    + reflexivity.
Qed.

(** C6 (the code departs from the claim).  Uploading the existing local file
    ["docs/n.txt"] with no parent folder stores it under the root with
    identifier ["n1"] and the local content; downloading ["n1"] then raises
    IndexError and writes no file, so the content is not reproduced.  The
    cause is the one of C1. *)
Theorem upload_then_download_under_root :
  forall n,
    exists w1 e w2,
      upload "docs/n.txt" None sample_world = Ret tt w1
      /\ lookup (remote w1) "n1" = Some e
      /\ title e = "n.txt" /\ content e = "data"
      /\ parents e = [mkParentRef "r0" true]
      /\ download_file (S n) "n1" w1 = Raise IndexError w2
      /\ local_files (disk w2) = local_files (disk sample_world).
Proof.
  intros n. do 3 eexists.
  split; [vm_compute; reflexivity |].
  split; [vm_compute; reflexivity |].
  split; [reflexivity |]. split; [reflexivity |]. split; [reflexivity |].
  split.
  - eapply (download_file_root_child n "n1" _ sample_root (mkParentRef "r0" true) []);
      try reflexivity. discriminate.
  - reflexivity.
Qed.

(** ** Further parent references *)

Lemma find_entry_first_parent_only (fid : string) (l : list Entry) :
  find_entry fid (map first_parent_only l)
  = option_map first_parent_only (find_entry fid l).
Proof.
  induction l as [| e l IH]; [reflexivity |].
  cbn. destruct (file_id e =? fid); [reflexivity | exact IH].
Qed.

Lemma lookup_drop_other_parents (d : Drive) (fid : string) :
  lookup (drop_other_parents d) fid = option_map first_parent_only (lookup d fid).
Proof. unfold lookup, resolve. cbn. apply find_entry_first_parent_only. Qed.

Lemma FetchMetadata_erase (fid : string) (w : World) :
  FetchMetadata fid (erase w) = erase_res first_parent_only (FetchMetadata fid w).
Proof.
  destruct (lookup (remote w) fid) as [e |] eqn:Hl.
  - rewrite (FetchMetadata_found _ _ w Hl).
    rewrite (FetchMetadata_found fid (first_parent_only e) (erase w)); [reflexivity |].
    cbn [erase remote]. now rewrite lookup_drop_other_parents, Hl.
  - rewrite (FetchMetadata_missing _ w Hl).
    rewrite (FetchMetadata_missing fid (erase w)); [reflexivity |].
    cbn [erase remote]. now rewrite lookup_drop_other_parents, Hl.
Qed.

Lemma bind_erase {A B A' B'} (f : A -> A') (g : B -> B')
      (m : M A) (m' : M A') (k : A -> M B) (k' : A' -> M B') (w : World) :
  m' (erase w) = erase_res f (m w) ->
  (forall a w1, k' (f a) (erase w1) = erase_res g (k a w1)) ->
  bind m' k' (erase w) = erase_res g (bind m k w).
Proof.
  intros Hm Hk. unfold bind. rewrite Hm.
  destruct (m w) as [a w1 | e w1 |]; cbn [erase_res]; [apply Hk | reflexivity | reflexivity].
Qed.

Lemma ancestor_walk_erase (fuel : nat) (folder : Entry) (name : string) (w : World) :
  ancestor_walk fuel (first_parent_only folder) name (erase w)
  = erase_res (fun s => s) (ancestor_walk fuel folder name w).
Proof.
  revert folder name w. induction fuel as [| n IH]; intros folder name w.
  - cbn. destruct (parents folder) as [| p rest]; [reflexivity |]. cbn.
    destruct (isRoot p); reflexivity.
  - cbn [ancestor_walk first_parent_only parents].
    destruct (parents folder) as [| p rest]; [reflexivity |]. cbn [firstn].
    destruct (isRoot p); cbn [negb]; [reflexivity |].
    apply (bind_erase first_parent_only (fun s => s)).
    + apply FetchMetadata_erase.
    + intros a w1. apply IH.
Qed.

Lemma download_entry_erase (fuel : nat) (dl_file : Entry) (w : World) :
  download_entry fuel (first_parent_only dl_file) (erase w)
  = erase_res (fun u => u) (download_entry fuel dl_file w).
Proof.
  unfold download_entry. cbn [first_parent_only parents title content].
  destruct (parents dl_file) as [| p rest]; [reflexivity |]. cbn [firstn].
  apply (bind_erase first_parent_only (fun u => u)); [apply FetchMetadata_erase |].
  intros folder w1.
  apply (bind_erase (fun s => s) (fun u => u)).
  { cbn [first_parent_only title]. apply ancestor_walk_erase. }
  intros folder_name w2.
  unfold bind, get_disk, GetContentFile, write_file, makedirs, record_call, bind, get_disk,
    set_disk, print, ret.
  cbn [erase disk]. destruct (negb (isdir (disk w2) folder_name)); reflexivity.
Qed.

Lemma download_file_erase_single (fuel : nat) (fid : string) (file : Entry) (w : World) :
  lookup (remote w) fid = Some file ->
  lookup (remote w) (file_id file) = Some file ->
  mimeType file <> FOLDER_MIME_TYPE ->
  download_file fuel fid (erase w) = erase_res (fun u => u) (download_file fuel fid w).
Proof.
  intros Hl Hself Hm. destruct fuel as [| n]; [reflexivity |].
  assert (Hl' : lookup (remote (erase w)) fid = Some (first_parent_only file)).
  { cbn [erase remote]. now rewrite lookup_drop_other_parents, Hl. }
  assert (Hself' : lookup (remote (logged (FilesGet fid) (erase w)))
                          (file_id (first_parent_only file))
                   = Some (first_parent_only file)).
  { cbn [erase logged remote first_parent_only file_id].
    now rewrite lookup_drop_other_parents, Hself. }
  rewrite (download_file_single n fid file w Hl Hm).
  rewrite (download_file_single n fid (first_parent_only file) (erase w) Hl' Hm).
  cbn [for_each]. unfold bind.
  rewrite (download_loop_body_run n file file (logged (FilesGet fid) w) Hself).
  rewrite (download_loop_body_run n _ _ _ Hself').
  cbn [first_parent_only mimeType file_id].
  apply String.eqb_neq in Hm. rewrite Hm.
  change (logged (FilesGet (file_id file)) (logged (FilesGet fid) (erase w)))
    with (erase (logged (FilesGet (file_id file)) (logged (FilesGet fid) w))).
  change (mkEntry (file_id file) (title file) (mimeType file) (firstn 1 (parents file))
                  (trashed file) (webContentLink file) (permissions file) (content file))
    with (first_parent_only file).
  rewrite download_entry_erase.
  destruct (download_entry n file _); reflexivity.
Qed.

(** ** The Downloader leaves the remote drive as it is *)

Lemma keeps_remote_bind {A B} (m : M A) (k : A -> M B) :
  keeps_remote m -> (forall a, keeps_remote (k a)) -> keeps_remote (bind m k).
Proof.
  intros Hm Hk w w'. unfold bind.
  destruct (m w) as [a w1 | e w1 |] eqn:Hrun; intros H.
  - rewrite (Hk a w1 w' H). apply Hm. now rewrite Hrun.
  - apply Hm. now rewrite Hrun.
  - discriminate.
Qed.

Lemma keeps_remote_ret {A} (a : A) : keeps_remote (ret a).
Proof. intros w w' [= <-]. reflexivity. Qed.

Lemma keeps_remote_raise {A} (e : Exn) : keeps_remote (@raise A e).
Proof. intros w w' [= <-]. reflexivity. Qed.

Lemma keeps_remote_out_of_fuel {A} : keeps_remote (@out_of_fuel A).
Proof. intros w w' [=]. Qed.

Lemma keeps_remote_print (line : string) : keeps_remote (print line).
Proof. intros w w' [= <-]. reflexivity. Qed.

Lemma keeps_remote_record_call (c : Call) : keeps_remote (record_call c).
Proof. intros w w' [= <-]. reflexivity. Qed.

Lemma keeps_remote_get_disk : keeps_remote get_disk.
Proof. intros w w' [= <-]. reflexivity. Qed.

Lemma keeps_remote_get_remote : keeps_remote get_remote.
Proof. intros w w' [= <-]. reflexivity. Qed.

Lemma keeps_remote_set_disk (d : Disk) : keeps_remote (set_disk d).
Proof. intros w w' [= <-]. reflexivity. Qed.

Create HintDb keeps discriminated.
#[local] Hint Resolve keeps_remote_ret keeps_remote_raise keeps_remote_out_of_fuel
  keeps_remote_print keeps_remote_record_call keeps_remote_get_disk
  keeps_remote_get_remote keeps_remote_set_disk : keeps.

Ltac keeps :=
  repeat first
    [ match goal with
      | |- keeps_remote (bind _ _) => apply keeps_remote_bind; [| intros ? ]
      end
    | match goal with
      | |- keeps_remote (match ?x with _ => _ end) => destruct x
      end
    | solve [ auto with keeps ] ].

Lemma keeps_remote_FetchMetadata (fid : string) : keeps_remote (FetchMetadata fid).
Proof. unfold FetchMetadata. keeps. Qed.

Lemma keeps_remote_for_each {A} (l : list A) (body : A -> M unit) :
  (forall x, keeps_remote (body x)) -> keeps_remote (for_each l body).
Proof. intros H. induction l as [| x l IH]; cbn [for_each]; keeps. Qed.

Lemma keeps_remote_list_files (parent_folder : string) (skip_print skip_directory : bool) :
  keeps_remote (list_files parent_folder skip_print skip_directory).
Proof.
  intros w w'. rewrite list_files_run. now intros [= <-].
Qed.

Lemma keeps_remote_ancestor_walk (fuel : nat) (folder : Entry) (name : string) :
  keeps_remote (ancestor_walk fuel folder name).
Proof.
  revert folder name. induction fuel as [| n IH]; intros folder name; cbn [ancestor_walk].
  - keeps.
  - destruct (parents folder) as [| p rest]; [keeps |].
    destruct (negb (isRoot p)); [| keeps].
    apply keeps_remote_bind; [apply keeps_remote_FetchMetadata | intros a; apply IH].
Qed.

#[local] Hint Resolve keeps_remote_FetchMetadata keeps_remote_list_files
  keeps_remote_ancestor_walk : keeps.

Lemma keeps_remote_download_entry (fuel : nat) (dl_file : Entry) :
  keeps_remote (download_entry fuel dl_file).
Proof. unfold download_entry, GetContentFile, write_file, makedirs. keeps. Qed.

Lemma keeps_remote_download_file (fuel : nat) (fid : string) :
  keeps_remote (download_file fuel fid).
Proof.
  revert fid. induction fuel as [| n IH]; intros fid; [apply keeps_remote_out_of_fuel |].
  rewrite download_file_unfold.
  apply keeps_remote_bind; [apply keeps_remote_FetchMetadata | intros file].
  apply keeps_remote_bind; [keeps |].
  intros l. apply keeps_remote_for_each. intros x. unfold download_loop_body.
  apply keeps_remote_bind; [apply keeps_remote_FetchMetadata | intros a].
  destruct (mimeType a =? FOLDER_MIME_TYPE); [apply IH | apply keeps_remote_download_entry].
Qed.

(** ** Erasing further parent references under a folder download *)

Lemma keeps_remote_download_loop_body (n : nat) (x : Entry) :
  keeps_remote (download_loop_body n x).
Proof.
  unfold download_loop_body.
  apply keeps_remote_bind; [apply keeps_remote_FetchMetadata | intros a].
  destruct (mimeType a =? FOLDER_MIME_TYPE);
    [apply keeps_remote_download_file | apply keeps_remote_download_entry].
Qed.

Lemma for_each_erase_in (d : Drive) (n : nat) (l : list Entry) :
  (forall x, In x l ->
     forall w, remote w = d ->
       download_loop_body n (first_parent_only x) (erase w)
       = erase_res (fun u => u) (download_loop_body n x w)) ->
  forall w, remote w = d ->
    for_each (map first_parent_only l) (download_loop_body n) (erase w)
    = erase_res (fun u => u) (for_each l (download_loop_body n) w).
Proof.
  induction l as [| x l IHl]; intros Hbody w Hw; [reflexivity |].
  cbn [map for_each]. unfold bind.
  rewrite (Hbody x (or_introl eq_refl) w Hw).
  destruct (download_loop_body n x w) as [u w1 | e w1 |] eqn:Hb; cbn [erase_res];
    [| reflexivity | reflexivity].
  apply IHl.
  - intros y Hy. apply Hbody. now right.
  - rewrite <- Hw. apply (keeps_remote_download_loop_body n x). now rewrite Hb.
Qed.

Lemma download_file_erase_listed (fuel : nat) :
  forall fid w,
    (forall g, In g (listed_folders fuel (remote w) fid) -> same_listing (remote w) g) ->
    download_file fuel fid (erase w) = erase_res (fun u => u) (download_file fuel fid w).
Proof.
  induction fuel as [| n IH]; intros fid w Hlist; [reflexivity |].
  rewrite !download_file_unfold. unfold bind at 1 4.
  rewrite FetchMetadata_erase.
  destruct (FetchMetadata fid w) as [file w1 | e w1 |] eqn:Hf; cbn [erase_res];
    [| reflexivity | reflexivity].
  apply FetchMetadata_inv in Hf as [Hl ->].
  cbn [listed_folders] in Hlist. rewrite Hl in Hlist.
  cbn [first_parent_only mimeType].
  assert (Hbody :
    forall l, (forall g,
                 In g (flat_map
                         (fun dl_file =>
                            match lookup (remote w) (file_id dl_file) with
                            | Some a =>
                                if mimeType a =? FOLDER_MIME_TYPE
                                then listed_folders n (remote w) (file_id a)
                                else []
                            | None => []
                            end) l) -> same_listing (remote w) g) ->
      forall x, In x l ->
        forall w2, remote w2 = remote w ->
          download_loop_body n (first_parent_only x) (erase w2)
          = erase_res (fun u => u) (download_loop_body n x w2)).
  { intros l Hl' x Hx w2 Hw2. unfold download_loop_body.
    cbn [first_parent_only file_id]. unfold bind. rewrite FetchMetadata_erase.
    destruct (FetchMetadata (file_id x) w2) as [a w3 | e w3 |] eqn:Hfx; cbn [erase_res];
      [| reflexivity | reflexivity].
    apply FetchMetadata_inv in Hfx as [Hlx ->].
    cbn [first_parent_only mimeType file_id].
    destruct (mimeType a =? FOLDER_MIME_TYPE) eqn:Ha; [| apply download_entry_erase].
    apply IH. cbn [logged remote]. rewrite Hw2. intros g Hg.
    apply Hl'. apply in_flat_map. exists x. split; [exact Hx |].
    rewrite Hw2 in Hlx. now rewrite Hlx, Ha. }
  destruct (mimeType file =? FOLDER_MIME_TYPE) eqn:Hm.
  - unfold bind at 1 3. unfold bind at 1 2. unfold print at 1 2.
    rewrite !list_files_run. cbn [erase logged remote disk stdout log gauth].
    assert (Hsame : same_listing (remote w) fid).
    { apply Hlist. apply in_or_app. left. now left. }
    unfold same_listing in Hsame. rewrite Hsame.
    match goal with
    | |- for_each _ _ ?wl = erase_res _ (for_each _ _ ?wr) =>
        change wl with (erase wr)
    end.
    apply (for_each_erase_in (remote w)); [| reflexivity].
    apply Hbody. intros g Hg. apply Hlist. apply in_or_app. now right.
  - unfold bind, ret.
    change [first_parent_only file] with (map first_parent_only [file]).
    apply (for_each_erase_in (remote w)); [| reflexivity].
    apply Hbody. intros g Hg. apply Hlist. cbn [app]. exact Hg.
Qed.

(** ** Upload followed by download *)

Lemma find_entry_app_found (fid : string) (l l' : list Entry) (e : Entry) :
  find_entry fid l = Some e -> find_entry fid (l ++ l') = Some e.
Proof.
  induction l as [| x l IH]; cbn; [discriminate |].
  destruct (file_id x =? fid); [trivial | exact IH].
Qed.

Lemma find_entry_app_missing (fid : string) (l l' : list Entry) :
  find_entry fid l = None -> find_entry fid (l ++ l') = find_entry fid l'.
Proof.
  induction l as [| x l IH]; cbn; [reflexivity |].
  destruct (file_id x =? fid); [discriminate | exact IH].
Qed.

Lemma update_entry_app_missing (fid : string) (f : Entry -> Entry) (l l' : list Entry) :
  find_entry fid l = None ->
  update_entry fid f (l ++ l') = l ++ update_entry fid f l'.
Proof.
  induction l as [| x l IH]; cbn; [reflexivity |].
  destruct (file_id x =? fid); [discriminate |]. intros H. now rewrite IH.
Qed.

Lemma resolve_idempotent (d : Drive) (fid : string) :
  resolve d (resolve d fid) = resolve d fid.
Proof.
  unfold resolve. destruct (fid =? "root") eqn:H; [| now rewrite H].
  destruct (root_id d =? "root"); reflexivity.
Qed.

Lemma upload_run (filename : string) (parent_folder : option string) (data fid : string)
      (ids : list string) (w : World) :
  assoc filename (local_files (disk w)) = Some data ->
  fresh_ids (remote w) = fid :: ids ->
  lookup (remote w) fid = None ->
  fid <> "root" ->
  upload filename parent_folder w
  = Ret tt
        (mkWorld
           (mkDrive (root_id (remote w))
                    (entries (remote w)
                     ++ [uploaded_entry (remote w) fid filename parent_folder data])
                    ids)
           (disk w)
           (stdout w ++ [("Get it with: " ++ fid)%string;
                        ("URL: " ++ content_link fid)%string])
           (log w ++ [FilesInsert (file_params filename parent_folder) data;
                      FilesGet fid; PermissionsInsert fid anyone_reader])
           (gauth w)).
Proof.
  intros Hfile Hids Hfresh Hroot.
  apply String.eqb_neq in Hroot.
  assert (Hres : forall d', resolve d' fid = fid).
  { intros d'. unfold resolve. now rewrite Hroot. }
  unfold lookup in Hfresh. rewrite Hres in Hfresh.
  unfold upload, bind at 1, get_disk, exists_path. rewrite Hfile. cbn [negb].
  unfold bind at 1, SetContentFile, bind at 1, get_disk. rewrite Hfile. unfold ret at 1.
  unfold bind at 1, Upload, bind at 1, record_call, bind at 1, get_remote.
  cbn [remote disk stdout log gauth]. rewrite Hids.
  unfold bind at 1, set_remote, ret at 1. cbn [remote disk stdout log gauth].
  unfold bind at 1, FetchMetadata, bind at 1, record_call, bind at 1, get_remote.
  cbn [remote disk stdout log gauth].
  unfold lookup. rewrite !Hres. cbn [entries root_id fresh_ids].
  rewrite (find_entry_app_missing _ _ _ Hfresh). cbn [find_entry file_id].
  rewrite String.eqb_refl. unfold ret at 1.
  unfold bind at 1, InsertPermission, bind at 1, record_call, bind at 1, get_remote.
  cbn [remote disk stdout log gauth]. unfold lookup. rewrite !Hres.
  cbn [entries root_id fresh_ids].
  rewrite (find_entry_app_missing _ _ _ Hfresh). cbn [find_entry file_id].
  rewrite String.eqb_refl.
  unfold set_remote, bind, print. cbn [remote disk stdout log gauth].
  rewrite (update_entry_app_missing _ _ _ _ Hfresh). cbn [update_entry file_id].
  rewrite String.eqb_refl.
  unfold uploaded_entry, add_permission. cbn.
  rewrite <- !app_assoc. reflexivity.
Qed.

Lemma above_extend (d : Drive) (extra : list Entry) (ids : list string)
      (folder : Entry) (us : list string) :
  Above d folder us ->
  Above (mkDrive (root_id d) (entries d ++ extra) ids) folder us.
Proof.
  induction 1 as [folder p rest Hp Hr | folder p rest folder' us Hp Hr Hl Ha IH].
  - now apply (above_top _ folder p rest).
  - apply (above_up _ folder p rest folder' us); trivial.
    unfold lookup in *. cbn [entries]. now apply find_entry_app_found.
Qed.

(** Uploading a local file into a folder that has a chain to a root-flagged
    reference, then downloading the assigned identifier, writes the same
    content to the joined titles of the chain, of the folder and of the base
    name. *)
Lemma upload_then_download_in_folder
      (filename pf data fid : string) (ids : list string)
      (folder : Entry) (us : list string) (w : World) :
  assoc filename (local_files (disk w)) = Some data ->
  fresh_ids (remote w) = fid :: ids ->
  lookup (remote w) fid = None ->
  fid <> "root" ->
  pf <> "" ->
  lookup (remote w) pf = Some folder ->
  Above (remote w) folder us ->
  exists w1,
    upload filename (Some pf) w = Ret tt w1
    /\ exists fuel0, forall fuel,
         fuel0 <= fuel ->
         exists w2,
           download_file fuel fid w1 = Ret tt w2
           /\ assoc (fold_right path_join (last (split slash filename) "")
                                (us ++ [title folder]))
                    (local_files (disk w2))
              = Some data.
Proof.
  intros Hfile Hids Hfresh Hroot Hpf Hl Ha.
  eexists. split; [apply (upload_run _ _ _ _ _ _ Hfile Hids Hfresh Hroot) |].
  set (e := uploaded_entry (remote w) fid filename (Some pf) data).
  set (d1 := mkDrive (root_id (remote w)) (entries (remote w) ++ [e]) ids).
  match goal with |- context [download_file _ fid ?x] => set (w1 := x) end.
  assert (Hres : resolve d1 fid = fid).
  { unfold resolve. apply String.eqb_neq in Hroot. now rewrite Hroot. }
  assert (He : lookup (remote w1) fid = Some e).
  { unfold lookup in *. cbn [w1 remote]. rewrite Hres. cbn [d1 entries].
    assert (Hres0 : resolve (remote w) fid = fid).
    { unfold resolve. apply String.eqb_neq in Hroot. now rewrite Hroot. }
    rewrite Hres0 in Hfresh.
    rewrite (find_entry_app_missing _ _ _ Hfresh). cbn. now rewrite String.eqb_refl. }
  assert (Hp : parents e
               = [mkParentRef (resolve (remote w) pf)
                              (resolve (remote w) pf =? root_id (remote w))]).
  { unfold e, uploaded_entry, service_parents, file_params. cbn [parents fp_parents truthy].
    apply String.eqb_neq in Hpf. rewrite Hpf. reflexivity. }
  assert (Hf : lookup (remote w1) (resolve (remote w) pf) = Some folder).
  { unfold lookup in *. cbn [w1 remote d1 entries].
    change (resolve d1 (resolve (remote w) pf))
      with (resolve (remote w) (resolve (remote w) pf)).
    rewrite resolve_idempotent. now apply find_entry_app_found. }
  assert (Hself : lookup (remote w1) (file_id e) = Some e) by exact He.
  assert (Hmime : mimeType e <> FOLDER_MIME_TYPE) by discriminate.
  assert (Ha1 : Above (remote w1) folder us)
    by now apply (above_extend (remote w) [e] ids).
  destruct (download_file_writes fid e folder _ _ us w1 He Hmime Hself Hp Hf Ha1)
    as [fuel0 Hrun].
  exists fuel0. intros fuel Hle. destruct (Hrun fuel Hle) as (w2 & Hw2 & _ & Hfiles).
    exists w2. split; [exact Hw2 |]. rewrite Hfiles. cbn [assoc].
    unfold e at 1 2. cbn [uploaded_entry title content]. now rewrite String.eqb_refl.
Qed.

(** ** Further parent references: the claim and its amendment *)

(** C7, counterexample.  Downloading folder ["b"] writes the file whose
    second parent is ["b"] (at the path of its first parent); once the second
    reference is erased the Lister no longer returns the file and nothing is
    written. *)
Lemma further_parents_change_folder_download :
  files_written (download_file 3 "b" multi_world) = Some [("A/x.txt", "hello")]
  /\ files_written (download_file 3 "b" (erase multi_world)) = Some []
  /\ ~ further_parents_have_no_effect.
Proof.
  split; [vm_compute; reflexivity |]. split; [vm_compute; reflexivity |].
  intros H. specialize (H 3 "b" multi_world). vm_compute in H. discriminate.
Qed.

(** C7 (amended).  The walk and the download of an entry follow only the
    first parent reference of the entry and of every ancestor: on the drive
    with all further references erased they compute the same path and have
    the same outcome, and so has [download_file] on an identifier that is not
    a folder.  On a folder, further references count only through the
    Lister, whose query matches every parent reference: whenever the Lister
    answers alike, with and without them, for the folders this download
    lists, [download_file] has the same outcome on both drives, whatever is
    erased elsewhere on the drive. *)
Theorem download_follows_first_parent_only (fuel : nat) (w : World) :
  (forall folder name,
      ancestor_walk fuel (first_parent_only folder) name (erase w)
      = erase_res (fun s => s) (ancestor_walk fuel folder name w))
  /\ (forall dl_file,
         download_entry fuel (first_parent_only dl_file) (erase w)
         = erase_res (fun u => u) (download_entry fuel dl_file w))
  /\ (forall fid file,
         lookup (remote w) fid = Some file ->
         lookup (remote w) (file_id file) = Some file ->
         mimeType file <> FOLDER_MIME_TYPE ->
         download_file fuel fid (erase w)
         = erase_res (fun u => u) (download_file fuel fid w))
  /\ (forall fid,
         (forall g,
             In g (listed_folders fuel (remote w) fid) ->
             children (drop_other_parents (remote w)) g
             = map first_parent_only (children (remote w) g)) ->
         download_file fuel fid (erase w)
         = erase_res (fun u => u) (download_file fuel fid w)).
Proof.
  split; [| split; [| split]].
  - intros folder name. apply ancestor_walk_erase.
  - intros dl_file. apply download_entry_erase.
  - intros fid file Hl Hself Hm. now apply (download_file_erase_single fuel fid file).
  - intros fid Hlist. now apply download_file_erase_listed.
Qed.

(** ** The theorems at concrete inputs *)

Lemma upload_missing_path_witness :
  exists_path (disk sample_world) "nope.txt" = false
  /\ upload "nope.txt" None sample_world
     = Ret tt (mkWorld (remote sample_world) (disk sample_world)
                       (stdout sample_world ++ [missing_message "nope.txt"])
                       (log sample_world) (gauth sample_world)).
Proof.
  split; [reflexivity |].
  exact (proj1 (upload_missing_path_is_reported "nope.txt" None sample_world eq_refl)).
Defined.

Lemma list_files_never_prints_folders_witness :
  mimeType sample_A = FOLDER_MIME_TYPE
  /\ list_files_body false true sample_A sample_world = Ret tt sample_world.
Proof.
  split; [reflexivity |].
  exact (proj1 (list_files_never_prints_folders "root" false sample_world)
               sample_A eq_refl).
Defined.

Lemma download_file_folder_or_single_witness :
  lookup (remote sample_world) "a" = Some sample_A
  /\ mimeType sample_A = FOLDER_MIME_TYPE
  /\ download_file 3 "a" sample_world
     = for_each (children (remote sample_world) "a") (download_loop_body 2)
                (mkWorld (remote sample_world) (disk sample_world)
                         (stdout sample_world ++ [recursion_notice sample_A])
                         (log sample_world ++ [FilesGet "a"; FilesList (list_query "a")])
                         (gauth sample_world)).
Proof.
  split; [reflexivity |]. split; [reflexivity |].
  exact (proj2 (proj1 (download_file_folder_or_single 2 "a" sample_A sample_world eq_refl)
                      eq_refl)).
Defined.

Lemma upload_builds_file_record_witness :
  assoc "docs/n.txt" (local_files (disk sample_world)) = Some "data"
  /\ is_basename "docs/n.txt" (fp_title (file_params "docs/n.txt" (Some "b")))
  /\ fp_parents (file_params "docs/n.txt" (Some "b")) = [mkFileLink "drive#fileLink" "b"].
Proof.
  split; [reflexivity |].
  pose proof (upload_builds_file_record "docs/n.txt" (Some "b") "data" sample_world eq_refl)
    as (_ & Hbase & _ & Hlink & _).
  split; [exact Hbase |]. apply Hlink; [reflexivity | discriminate].
Defined.

Lemma main_acts_on_one_operation_witness :
  (truthy (arg_list_files (mkArgs (Some "root") (Some "docs/n.txt") None (Some "f"))) = true
   /\ exists w',
        dispatch 3 (mkArgs (Some "root") (Some "docs/n.txt") None (Some "f")) sample_world
        = Ret tt w'
        /\ log w' = log sample_world ++ [FilesList (list_query "root")]
        /\ remote w' = remote sample_world /\ disk w' = disk sample_world)
  /\ (truthy (arg_upload_file (mkArgs None (Some "") (Some "b") None)) = false
      /\ dispatch 3 (mkArgs None (Some "") (Some "b") None) sample_world
         = Ret tt (mkWorld (remote sample_world) (disk sample_world)
                           (stdout sample_world ++ [no_options_message])
                           (log sample_world) (gauth sample_world))).
Proof.
  split.
  - split; [reflexivity |].
    exact (proj1 (main_acts_on_one_operation
                    3 (mkArgs (Some "root") (Some "docs/n.txt") None (Some "f"))
                    sample_world)
                 eq_refl).
  - split; [reflexivity |].
    pose proof (main_acts_on_one_operation 3 (mkArgs None (Some "") (Some "b") None)
                  sample_world) as (_ & _ & _ & H & _).
    exact (H eq_refl eq_refl eq_refl).
Defined.

Lemma walk_indexes_parents_unguarded_witness :
  parents sample_y = [mkParentRef "r0" true]
  /\ lookup (remote sample_world) "r0" = Some sample_root
  /\ parents sample_root = []
  /\ download_entry 5 sample_y sample_world
     = Raise IndexError (logged (FilesGet "r0") sample_world).
Proof.
  split; [reflexivity |]. split; [reflexivity |]. split; [reflexivity |].
  pose proof (walk_indexes_parents_unguarded 5 sample_y sample_world) as (_ & _ & _ & _ & H).
  exact (H (mkParentRef "r0" true) [] sample_root eq_refl eq_refl eq_refl).
Defined.

Lemma download_follows_first_parent_only_witness :
  (lookup (remote multi_world) "f" = Some multi_x
   /\ mimeType multi_x <> FOLDER_MIME_TYPE
   /\ download_file 3 "f" (erase multi_world)
      = erase_res (fun u => u) (download_file 3 "f" multi_world))
  /\ (listed_folders 3 (remote multi_world) "a" = ["a"]
      /\ children (drop_other_parents (remote multi_world)) "a"
         = map first_parent_only (children (remote multi_world) "a")
      /\ first_parent_only multi_x <> multi_x
      /\ download_file 3 "a" (erase multi_world)
         = erase_res (fun u => u) (download_file 3 "a" multi_world)).
Proof.
  pose proof (download_follows_first_parent_only 3 multi_world) as (_ & _ & H3 & H4).
  split.
  - split; [reflexivity |]. split; [discriminate |].
    apply (H3 "f" multi_x); [reflexivity | reflexivity | discriminate].
  - split; [reflexivity |]. split; [reflexivity |]. split; [discriminate |].
    apply (H4 "a"). intros g [<- | []]. reflexivity.
Defined.

(** * Further properties *)

(** ** Effects of the Downloader and of the Uploader *)

Ltac only_reads_by lg out fs ds :=
  unfold only_reads; cbn [remote disk stdout log gauth local_files local_dirs];
  split; [reflexivity |]; split; [reflexivity |];
  split; [exists lg; split; [now rewrite ?app_nil_r
                          | cbn; rewrite ?andb_true_r; auto] |];
  split; [exists out; split; [now rewrite ?app_nil_r
                          | repeat apply Forall_cons; try apply Forall_nil; auto] |];
  split; [exists fs; now rewrite ?app_nil_r | exists ds; now rewrite ?app_nil_r].

Lemma only_reads_refl (w : World) : only_reads w w.
Proof.
  only_reads_by (@nil Call) (@nil string) (@nil (string * string)) (@nil string).
Qed.

Lemma only_reads_trans (w1 w2 w3 : World) :
  only_reads w1 w2 -> only_reads w2 w3 -> only_reads w1 w3.
Proof.
  intros (Hr & Hg & (l & Hl & Hlr) & (o & Ho & Hor) & (fs & Hfs) & (ds & Hds))
         (Hr' & Hg' & (l' & Hl' & Hlr') & (o' & Ho' & Hor') & (fs' & Hfs') & (ds' & Hds')).
  split; [congruence |]. split; [congruence |]. split; [| split; [| split]].
  - exists (l ++ l'). split; [now rewrite Hl', Hl, app_assoc |].
    now rewrite forallb_app, Hlr, Hlr'.
  - exists (o ++ o'). split; [now rewrite Ho', Ho, app_assoc |].
    apply Forall_app. now split.
  - exists (fs' ++ fs). now rewrite Hfs', Hfs, app_assoc.
  - exists (ds' ++ ds). now rewrite Hds', Hds, app_assoc.
Qed.

Lemma reads_only_bind {A B} (m : M A) (k : A -> M B) :
  reads_only m -> (forall a, reads_only (k a)) -> reads_only (bind m k).
Proof.
  intros Hm Hk w w'. unfold bind.
  destruct (m w) as [a w1 | e w1 |] eqn:Hrun; intros H.
  - apply (only_reads_trans w w1 w'); [apply Hm; now rewrite Hrun | now apply (Hk a)].
  - apply Hm. now rewrite Hrun.
  - discriminate.
Qed.

Lemma reads_only_ret {A} (a : A) : reads_only (ret a).
Proof. intros w w' [= <-]. apply only_reads_refl. Qed.

Lemma reads_only_raise {A} (e : Exn) : reads_only (@raise A e).
Proof. intros w w' [= <-]. apply only_reads_refl. Qed.

Lemma reads_only_out_of_fuel {A} : reads_only (@out_of_fuel A).
Proof. intros w w' [=]. Qed.

Lemma reads_only_get_disk : reads_only get_disk.
Proof. intros w w' [= <-]. apply only_reads_refl. Qed.

Lemma reads_only_get_remote : reads_only get_remote.
Proof. intros w w' [= <-]. apply only_reads_refl. Qed.

Lemma reads_only_print (line : string) :
  is_download_line line -> reads_only (print line).
Proof.
  intros Hline w w' [= <-].
  only_reads_by (@nil Call) [line] (@nil (string * string)) (@nil string).
Qed.

Lemma reads_only_record_call (c : Call) :
  is_read_call c = true -> reads_only (record_call c).
Proof.
  intros Hc w w' [= <-].
  only_reads_by [c] (@nil string) (@nil (string * string)) (@nil string).
Qed.

Lemma reads_only_makedirs (p : string) : reads_only (makedirs p).
Proof.
  intros w w' [= <-].
  only_reads_by (@nil Call) (@nil string) (@nil (string * string)) [p].
Qed.

Lemma reads_only_write_file (p data : string) : reads_only (write_file p data).
Proof.
  intros w w' [= <-].
  only_reads_by (@nil Call) (@nil string) [(p, data)] (@nil string).
Qed.

Lemma reads_only_FetchMetadata (fid : string) : reads_only (FetchMetadata fid).
Proof.
  unfold FetchMetadata.
  apply reads_only_bind; [now apply reads_only_record_call | intros _].
  apply reads_only_bind; [apply reads_only_get_remote | intros d].
  destruct (lookup d fid); [apply reads_only_ret | apply reads_only_raise].
Qed.

Lemma reads_only_silent_listing (parent_folder : string) (skip_directory : bool) :
  reads_only (list_files parent_folder true skip_directory).
Proof.
  intros w w'. rewrite list_files_run. intros [= <-].
  only_reads_by [FilesList (list_query parent_folder)] (@nil string)
                (@nil (string * string)) (@nil string).
Qed.

Lemma reads_only_for_each {A} (l : list A) (body : A -> M unit) :
  (forall x, reads_only (body x)) -> reads_only (for_each l body).
Proof.
  intros H. induction l as [| x l IH]; cbn [for_each]; [apply reads_only_ret |].
  apply reads_only_bind; [apply H | intros _; exact IH].
Qed.

Lemma reads_only_ancestor_walk (fuel : nat) (folder : Entry) (name : string) :
  reads_only (ancestor_walk fuel folder name).
Proof.
  revert folder name. induction fuel as [| n IH]; intros folder name; cbn [ancestor_walk];
    destruct (parents folder) as [| p rest]; try apply reads_only_raise;
    destruct (negb (isRoot p)); try apply reads_only_ret.
  - apply reads_only_out_of_fuel.
  - apply reads_only_bind; [apply reads_only_FetchMetadata | intros a; apply IH].
Qed.

Lemma reads_only_download_entry (fuel : nat) (dl_file : Entry) :
  reads_only (download_entry fuel dl_file).
Proof.
  unfold download_entry. destruct (parents dl_file) as [| p rest]; [apply reads_only_raise |].
  apply reads_only_bind; [apply reads_only_FetchMetadata | intros folder].
  apply reads_only_bind; [apply reads_only_ancestor_walk | intros folder_name].
  apply reads_only_bind; [apply reads_only_get_disk | intros d].
  apply reads_only_bind.
  { destruct (negb (isdir d folder_name)); [apply reads_only_makedirs | apply reads_only_ret]. }
  intros _. apply reads_only_bind.
  { apply reads_only_print. right. left. eexists. reflexivity. }
  intros _. apply reads_only_bind.
  { unfold GetContentFile. apply reads_only_bind;
      [now apply reads_only_record_call | intros _; apply reads_only_write_file]. }
  intros _. apply reads_only_print. right. right. eexists. reflexivity.
Qed.

Lemma reads_only_download_file (fuel : nat) (fid : string) :
  reads_only (download_file fuel fid).
Proof.
  revert fid. induction fuel as [| n IH]; intros fid; [apply reads_only_out_of_fuel |].
  rewrite download_file_unfold.
  apply reads_only_bind; [apply reads_only_FetchMetadata | intros file].
  apply reads_only_bind.
  { destruct (mimeType file =? FOLDER_MIME_TYPE); [| apply reads_only_ret].
    apply reads_only_bind; [| intros _; apply reads_only_silent_listing].
    apply reads_only_print. left. now exists file. }
  intros l. apply reads_only_for_each. intros x. unfold download_loop_body.
  apply reads_only_bind; [apply reads_only_FetchMetadata | intros a].
  destruct (mimeType a =? FOLDER_MIME_TYPE); [apply IH | apply reads_only_download_entry].
Qed.

Lemma join_titles_fold_right (us : list string) (y : string) :
  join_titles (us ++ [y]) = fold_right path_join y us.
Proof.
  destruct us as [| u us]; [reflexivity |].
  cbn [app join_titles]. apply join_all_fold_right.
Qed.

Lemma join_titles_snoc (ts : list string) (y : string) :
  ts <> [] -> join_titles (ts ++ [y]) = path_join (join_titles ts) y.
Proof.
  destruct ts as [| t ts]; [congruence | intros _].
  cbn [app join_titles]. unfold join_all. now rewrite fold_left_app.
Qed.

(** The complete effect of downloading one entry below a chain of folders,
    up to the requests logged. *)
Lemma download_entry_run (d : Drive) (dl_file folder : Entry) (p : ParentRef)
      (rest : list ParentRef) (us : list string) :
  parents dl_file = p :: rest ->
  lookup d (ref_id p) = Some folder ->
  Above d folder us ->
  exists fuel0, forall fuel w,
    remote w = d ->
    fuel0 <= fuel ->
    exists l,
      download_entry fuel dl_file w
      = Ret tt
            (mkWorld (remote w)
               (mkDisk ((join_titles (us ++ [title folder; title dl_file]), content dl_file)
                          :: local_files (disk w))
                       (with_dir (disk w) (join_titles (us ++ [title folder]))))
               (stdout w
                ++ progress_lines (join_titles (us ++ [title folder; title dl_file])))
               (log w ++ l) (gauth w)).
Proof.
  intros Hp Hl Ha.
  destruct (ancestor_walk_above _ _ _ Ha) as [fuel0 Hwalk].
  exists fuel0. intros fuel w Hw Hle. subst d.
  destruct (Hwalk fuel (title folder) (logged (FilesGet (ref_id p)) w))
    as (w1 & Hrun & Hr & Hd & Hs & Hg & l & Hlog); [reflexivity | exact Hle |].
  rewrite (download_entry_start _ _ _ _ _ _ Hp Hl).
  rewrite (bind_Ret _ _ _ _ _ Hrun).
  replace (us ++ [title folder; title dl_file])
    with ((us ++ [title folder]) ++ [title dl_file]) by now rewrite <- app_assoc.
  rewrite join_titles_snoc by (destruct us; discriminate).
  rewrite join_titles_fold_right.
  set (folder_name := fold_right path_join (title folder) us).
  cbn [logged remote disk stdout log gauth] in Hr, Hd, Hs, Hg, Hlog.
  exists (FilesGet (ref_id p) :: l ++ [MediaDownload (file_id dl_file)]).
  unfold bind, get_disk, GetContentFile, write_file, makedirs, record_call, bind, get_disk,
    set_disk, print, ret, with_dir, progress_lines.
  rewrite Hd.
  destruct (isdir (disk w) folder_name); cbn [negb remote disk stdout log gauth local_files
                                                  local_dirs];
    rewrite ?Hr, ?Hd, ?Hs, ?Hg, ?Hlog; cbn [app];
    rewrite <- !app_assoc; reflexivity.
Qed.

Lemma for_each_app {A} (l1 l2 : list A) (body : A -> M unit) (w : World) :
  for_each (l1 ++ l2) body w = (for_each l1 body ;;; for_each l2 body) w.
Proof.
  revert w. induction l1 as [| x l1 IH]; intros w; [reflexivity |].
  cbn [app for_each]. unfold bind at 1 2 3.
  destruct (body x w) as [u w1 | e w1 |]; [| reflexivity | reflexivity].
  rewrite IH. reflexivity.
Qed.

Lemma for_each_mirrors (d : Drive) (l : list Entry) (fs : list (string * string)) :
  Mirrors d l fs ->
  exists fuel0, forall n w,
    fuel0 <= n ->
    remote w = d ->
    exists w',
      for_each l (download_loop_body n) w = Ret tt w'
      /\ remote w' = d
      /\ local_files (disk w') = rev fs ++ local_files (disk w).
Proof.
  induction 1 as [| x file folder p rest us l fs Hx Hm Hp Hf Ha Hl IH
                  | x sub l fs1 fs2 Hx Hm Hself Hsub IH1 Hl IH2].
  - exists 0. intros n w _ Hw. exists w. now repeat split.
  - destruct (download_entry_run d file folder p rest us Hp Hf Ha) as [fuel1 Hrun].
    destruct IH as [fuel2 IH]. exists (Nat.max fuel1 fuel2).
    intros n w Hle Hw. subst d. cbn [for_each]. unfold bind at 1.
    rewrite (download_loop_body_run n x file w Hx).
    apply String.eqb_neq in Hm. rewrite Hm.
    destruct (Hrun n (logged (FilesGet (file_id x)) w)) as [lg Hrun'];
      [reflexivity | lia |].
    rewrite Hrun'.
    match goal with |- context [for_each l _ ?w1] =>
      destruct (IH n w1) as (w' & Hw' & Hr & Hfiles); [lia | reflexivity |]
    end.
    exists w'. split; [exact Hw' | split; [exact Hr |]].
    rewrite Hfiles. cbn [disk local_files logged rev]. now rewrite <- app_assoc.
  - destruct IH1 as [fuel1 IH1]. destruct IH2 as [fuel2 IH2].
    exists (Nat.max (S fuel1) fuel2).
    intros n w Hle Hw. subst d. cbn [for_each]. unfold bind at 1.
    rewrite (download_loop_body_run n x sub w Hx).
    rewrite Hm, String.eqb_refl.
    destruct n as [| n]; [lia |].
    rewrite (download_file_folder n (file_id sub) sub (logged (FilesGet (file_id x)) w)
               Hself Hm).
    cbn [logged remote disk stdout log gauth].
    match goal with |- context [for_each (children _ _) _ ?w1] =>
      destruct (IH1 n w1) as (w1' & Hw1 & Hr1 & Hfiles1); [lia | reflexivity |]
    end.
    rewrite Hw1.
    destruct (IH2 (S n) w1') as (w' & Hw' & Hr & Hfiles); [lia | exact Hr1 |].
    exists w'. split; [exact Hw' | split; [exact Hr |]].
    rewrite Hfiles, Hfiles1. cbn [disk local_files]. now rewrite rev_app_distr, <- app_assoc.
Qed.

Lemma preserves_bind {A B X} (proj : World -> X) (m : M A) (k : A -> M B) :
  preserves proj m -> (forall a, preserves proj (k a)) -> preserves proj (bind m k).
Proof.
  intros Hm Hk w w'. unfold bind.
  destruct (m w) as [a w1 | e w1 |] eqn:Hrun; intros H.
  - rewrite (Hk a w1 w' H). apply Hm. now rewrite Hrun.
  - apply Hm. now rewrite Hrun.
  - discriminate.
Qed.

Ltac preserves_step :=
  match goal with
  | |- preserves _ (bind _ _) => apply preserves_bind; [| intros ? ]
  | |- preserves _ (match ?x with _ => _ end) => destruct x
  | |- preserves _ _ => solve [ intros ? ? [= <-]; reflexivity | intros ? ? [=] ]
  end.

Lemma upload_preserves_disk (filename : string) (parent_folder : option string) :
  preserves disk (upload filename parent_folder).
Proof.
  unfold upload, SetContentFile, Upload, FetchMetadata, InsertPermission.
  repeat preserves_step.
Qed.

Lemma upload_preserves_gauth (filename : string) (parent_folder : option string) :
  preserves gauth (upload filename parent_folder).
Proof.
  unfold upload, SetContentFile, Upload, FetchMetadata, InsertPermission.
  repeat preserves_step.
Qed.

(** ** More of the Uploader *)


(** X2.  Whatever its outcome (the message for a missing path, a completed
    upload, an exception), [upload] leaves the local disk and the session as
    they were: it only reads the file it uploads. *)
Theorem upload_never_writes_locally
  (filename : string) (parent_folder : option string) (w w' : World) :
  final (upload filename parent_folder w) = Some w' ->
  disk w' = disk w /\ gauth w' = gauth w.
Proof.
  intros H. split;
    [now apply (upload_preserves_disk filename parent_folder)
    | now apply (upload_preserves_gauth filename parent_folder)].
Qed.

(** ** More of the Lister and of [main] *)

(** X3.  With folder-skipping disabled, [list_files] prints one line for
    every entry of the result, folders included, in the order of the result;
    with printing suppressed it prints nothing, whatever the other flag.  In
    all cases it sends one request, the query for the non-trashed children of
    the folder, and changes neither drive nor disk. *)
Theorem list_files_prints_every_child_without_skipping
  (parent_folder : string) (skip_print skip_directory : bool) (w : World) :
  exists w',
    list_files parent_folder skip_print skip_directory w
    = Ret (children (remote w) parent_folder) w'
    /\ (skip_print = false -> skip_directory = false ->
        stdout w' = stdout w ++ map list_line (children (remote w) parent_folder))
    /\ (skip_print = true -> stdout w' = stdout w)
    /\ log w' = log w ++ [FilesList ("'" ++ parent_folder
                                     ++ "' in parents and trashed=false")%string]
    /\ remote w' = remote w /\ disk w' = disk w.
Proof.
  eexists. split; [apply list_files_run |]. cbn [remote disk stdout log].
  split; [| split; [| repeat split]].
  - intros -> ->. unfold printed_lines. cbn [andb negb]. f_equal. f_equal.
    induction (children (remote w) parent_folder) as [| e l IH]; [reflexivity |].
    cbn [filter]. now rewrite IH.
  - intros ->. unfold printed_lines. now rewrite app_nil_r.
Qed.

(** X4.  The parent-folder option is read by the upload only: when the list
    option is set, or the upload option is not, the dispatch is the same for
    every value of the parent-folder option. *)
Theorem parent_folder_is_ignored_without_upload
  (fuel : nat) (args : Args) (parent_folder : option string) (w : World) :
  truthy (arg_list_files args) = true \/ truthy (arg_upload_file args) = false ->
  dispatch fuel (mkArgs (arg_list_files args) (arg_upload_file args) parent_folder
                        (arg_download_file args)) w
  = dispatch fuel args w.
Proof.
  intros H. unfold dispatch. cbn [arg_list_files arg_upload_file arg_download_file].
  destruct (truthy (arg_list_files args)); [reflexivity |].
  destruct H as [H | H]; [discriminate |]. now rewrite H.
Qed.

(** X5.  When the bootstrap returns, it has made exactly one authentication
    request, chosen by the cached credentials file alone: the interactive
    flow when there is none, a refresh when the cached token has expired, an
    authorization otherwise.  Credentials are then in memory, the cached ones
    when there were any, and the credentials file holds them.  Drive and disk
    are untouched. *)
Theorem bootstrap_authenticates_and_saves (w w' : World) :
  bootstrap w = Ret tt w' ->
  log w' = log w ++ [match creds_file (gauth w) with
                     | None => CommandLineAuth
                     | Some _ =>
                         if access_token_expired (gauth w) then Refresh else Authorize
                     end]
  /\ creds_file (gauth w') = credentials (gauth w')
  /\ credentials (gauth w') <> None
  /\ (forall c, creds_file (gauth w) = Some c -> credentials (gauth w') = Some c)
  /\ remote w' = remote w /\ disk w' = disk w.
Proof.
  unfold bootstrap, LoadCredentialsFile, SaveCredentialsFile,
    do_CommandLineAuth, do_Refresh, do_Authorize.
  unfold bind, get_gauth, set_gauth, record_call. cbn.
  destruct (creds_file (gauth w)) as [c |]; cbn.
  - destruct (access_token_expired (gauth w)); cbn; intros [= <-]; cbn;
      repeat split; try discriminate; trivial.
  - intros [= <-]. cbn. repeat split; try discriminate.
Qed.

(** ** What the Downloader never does *)

(** X6.  Whatever its outcome, [download_file] leaves the remote drive and
    the session as they were, and every request it makes only reads: a
    metadata fetch, a listing or a content download, never an insertion or a
    permission. *)
Theorem download_file_never_writes_to_drive
  (fuel : nat) (fid : string) (w w' : World) :
  final (download_file fuel fid w) = Some w' ->
  remote w' = remote w
  /\ gauth w' = gauth w
  /\ exists l, log w' = log w ++ l /\ forallb is_read_call l = true.
Proof.
  intros H. destruct (reads_only_download_file fuel fid w w' H) as (Hr & Hg & Hl & _).
  now repeat split.
Qed.


(** X8.  Whatever its outcome, [download_file] keeps what was printed and
    adds only its own lines: recursion notices and the two progress lines of
    a file.  The listings it asks for print nothing. *)
Theorem download_file_prints_only_progress
  (fuel : nat) (fid : string) (w w' : World) :
  final (download_file fuel fid w) = Some w' ->
  exists o, stdout w' = stdout w ++ o /\ Forall is_download_line o.
Proof.
  intros H.
  destruct (reads_only_download_file fuel fid w w' H) as (_ & _ & _ & Ho & _).
  exact Ho.
Qed.

(** ** Failures of the Downloader *)

(** X9.  An identifier the service does not know makes [download_file]
    raise ApiRequestError after the one fetch; so does a file whose first
    parent is not known, after the fetches of the file (twice) and of the
    parent.  In both cases nothing was printed and nothing written. *)
Theorem download_file_missing_entries (n : nat) (fid : string) (w : World) :
  (lookup (remote w) fid = None ->
   download_file (S n) fid w = Raise ApiRequestError (logged (FilesGet fid) w))
  /\ (forall file p rest,
         lookup (remote w) fid = Some file ->
         mimeType file <> FOLDER_MIME_TYPE ->
         lookup (remote w) (file_id file) = Some file ->
         parents file = p :: rest ->
         lookup (remote w) (ref_id p) = None ->
         download_file (S n) fid w
         = Raise ApiRequestError
                 (logged (FilesGet (ref_id p))
                         (logged (FilesGet (file_id file)) (logged (FilesGet fid) w)))).
Proof.
  split.
  - intros Hl. rewrite download_file_unfold.
    apply bind_Raise. now apply FetchMetadata_missing.
  - intros file p rest Hl Hm Hself Hp Hnone.
    rewrite (download_file_single _ _ _ _ Hl Hm). cbn [for_each].
    apply bind_Raise.
    rewrite (download_loop_body_run n file file (logged (FilesGet fid) w) Hself).
    apply String.eqb_neq in Hm. rewrite Hm. cbv iota.
    unfold download_entry. rewrite Hp.
    apply bind_Raise. now apply FetchMetadata_missing.
Qed.

(** X10.  Downloading a folder that has no non-trashed child returns
    normally: the recursion notice is printed, the folder is fetched and
    listed, and the disk is not touched. *)
Theorem download_file_empty_folder (n : nat) (fid : string) (file : Entry) (w : World) :
  lookup (remote w) fid = Some file ->
  mimeType file = FOLDER_MIME_TYPE ->
  children (remote w) fid = [] ->
  download_file (S n) fid w
  = Ret tt (mkWorld (remote w) (disk w) (stdout w ++ [recursion_notice file])
                    (log w ++ [FilesGet fid; FilesList (list_query fid)]) (gauth w)).
Proof.
  intros Hl Hm Hc. rewrite (download_file_folder _ _ _ _ Hl Hm). now rewrite Hc.
Qed.

Lemma reads_only_download_loop_body (n : nat) (x : Entry) :
  reads_only (download_loop_body n x).
Proof.
  unfold download_loop_body.
  apply reads_only_bind; [apply reads_only_FetchMetadata | intros a].
  destruct (mimeType a =? FOLDER_MIME_TYPE);
    [apply reads_only_download_file | apply reads_only_download_entry].
Qed.

(** X11.  A folder download stops at the first child that fails: when the
    loop has gone through the children before it and the body raises on it,
    [download_file] raises the same exception in the same world.  The
    children after it are not processed, and what was written before the
    failure stays on the disk. *)
Theorem download_file_stops_at_first_failure
  (n : nat) (fid : string) (file c : Entry) (before after : list Entry)
  (e : Exn) (w w1 w2 : World) :
  lookup (remote w) fid = Some file ->
  mimeType file = FOLDER_MIME_TYPE ->
  children (remote w) fid = before ++ c :: after ->
  for_each before (download_loop_body n)
           (mkWorld (remote w) (disk w) (stdout w ++ [recursion_notice file])
                    (log w ++ [FilesGet fid; FilesList (list_query fid)]) (gauth w))
  = Ret tt w1 ->
  download_loop_body n c w1 = Raise e w2 ->
  download_file (S n) fid w = Raise e w2
  /\ (exists fs, local_files (disk w1) = fs ++ local_files (disk w))
  /\ (exists fs, local_files (disk w2) = fs ++ local_files (disk w1)).
Proof.
  intros Hl Hm Hc Hbefore Hfail. split; [| split].
  - rewrite (download_file_folder _ _ _ _ Hl Hm), Hc, for_each_app.
    rewrite (bind_Ret _ _ _ _ _ Hbefore). cbn [for_each].
    now apply bind_Raise.
  - assert (H : reads_only (for_each before (download_loop_body n)))
      by (apply reads_only_for_each; intros x; apply reads_only_download_loop_body).
    match type of Hbefore with ?m ?w0 = _ =>
      destruct (H w0 w1) as (_ & _ & _ & _ & Hfs & _); [now rewrite Hbefore | exact Hfs]
    end.
  - destruct (reads_only_download_loop_body n c w1 w2) as (_ & _ & _ & _ & Hfs & _);
      [now rewrite Hfail | exact Hfs].
Qed.

(** ** The computed path *)

(** X12.  From a folder whose first parents lead to a root-flagged
    reference, the walk of [download_file] needs as many iterations as there
    are folders above it, and returns [os.path.join] of their titles, the
    topmost first, and of the name it started with; it only fetches
    metadata. *)
Theorem ancestor_walk_joins_titles (d : Drive) (folder : Entry) (us : list string) :
  Above d folder us ->
  forall fuel name w,
    remote w = d ->
    length us <= fuel ->
    exists w',
      ancestor_walk fuel folder name w = Ret (join_titles (us ++ [name])) w'
      /\ remote w' = remote w /\ disk w' = disk w /\ stdout w' = stdout w.
Proof.
  induction 1 as [folder p rest Hp Hr | folder p rest folder' us Hp Hr Hl Ha IH];
    intros fuel name w Hd Hle.
  - exists w. split; [| now repeat split].
    now apply (ancestor_walk_stop _ _ p rest).
  - rewrite length_app in Hle. cbn [length] in Hle.
    destruct fuel as [| fuel]; [lia |]. subst d.
    rewrite (ancestor_walk_step _ _ _ _ _ _ _ Hp Hr Hl).
    destruct (IH fuel (path_join (title folder') name) (logged (FilesGet (ref_id p)) w))
      as (w' & Hrun & Hr' & Hd' & Hs'); [reflexivity | lia |].
    exists w'. split; [| now repeat split].
    rewrite Hrun. f_equal.
    rewrite !join_titles_fold_right, fold_right_app. reflexivity.
Qed.

(** The run of [download_file] on a file below a chain of folders. *)
Lemma download_file_single_run (fid : string) (file folder : Entry) (p : ParentRef)
      (rest : list ParentRef) (us : list string) (w : World) :
  lookup (remote w) fid = Some file ->
  mimeType file <> FOLDER_MIME_TYPE ->
  lookup (remote w) (file_id file) = Some file ->
  parents file = p :: rest ->
  lookup (remote w) (ref_id p) = Some folder ->
  Above (remote w) folder us ->
  exists fuel0, forall fuel,
    fuel0 <= fuel ->
    exists l,
      download_file fuel fid w
      = Ret tt
            (mkWorld (remote w)
               (mkDisk ((join_titles (us ++ [title folder; title file]), content file)
                          :: local_files (disk w))
                       (with_dir (disk w) (join_titles (us ++ [title folder]))))
               (stdout w ++ progress_lines (join_titles (us ++ [title folder; title file])))
               (log w ++ l) (gauth w)).
Proof.
  intros Hl Hm Hself Hp Hf Ha.
  destruct (download_entry_run (remote w) file folder p rest us Hp Hf Ha) as [fuel0 Hrun].
  exists (S fuel0). intros fuel Hle. destruct fuel as [| n]; [lia |].
  destruct (Hrun n (logged (FilesGet (file_id file)) (logged (FilesGet fid) w)))
    as [l Hl']; [reflexivity | lia |].
  exists (FilesGet fid :: FilesGet (file_id file) :: l).
  rewrite (download_file_single _ _ _ _ Hl Hm). cbn [for_each]. unfold bind at 1.
  rewrite (download_loop_body_run n file file (logged (FilesGet fid) w) Hself).
  apply String.eqb_neq in Hm. rewrite Hm. cbv iota. rewrite Hl'.
  unfold ret. cbn [logged remote disk stdout log gauth].
  now rewrite <- !app_assoc.
Qed.

(** X13.  For a file that is not a folder, whose first parent is a stored
    folder from which first parents lead to a root-flagged reference, the
    download does not run on for ever (enough fuel is enough), and whenever
    [download_file] returns normally it has written exactly one file, with
    the entry's content, at [os.path.join] of the titles of the folders of
    the chain (topmost first), of the parent and of the file, has printed the
    two progress lines for that path, and has left the drive as it was. *)
Theorem download_file_writes_at_joined_path
  (fid : string) (file folder : Entry) (p : ParentRef) (rest : list ParentRef)
  (us : list string) (w : World) :
  lookup (remote w) fid = Some file ->
  mimeType file <> FOLDER_MIME_TYPE ->
  lookup (remote w) (file_id file) = Some file ->
  parents file = p :: rest ->
  lookup (remote w) (ref_id p) = Some folder ->
  Above (remote w) folder us ->
  exists fuel0, forall fuel,
    fuel0 <= fuel ->
    download_file fuel fid w <> OutOfFuel
    /\ forall w',
         download_file fuel fid w = Ret tt w' ->
         remote w' = remote w
         /\ local_files (disk w')
            = (join_titles (us ++ [title folder; title file]), content file)
                :: local_files (disk w)
         /\ stdout w'
            = stdout w
              ++ progress_lines (join_titles (us ++ [title folder; title file])).
Proof.
  intros Hl Hm Hself Hp Hf Ha.
  destruct (download_file_single_run fid file folder p rest us w Hl Hm Hself Hp Hf Ha)
    as [fuel0 Hrun].
  exists fuel0. intros fuel Hle. destruct (Hrun fuel Hle) as [l Hrun'].
  rewrite Hrun'. split; [discriminate |].
  intros w' [= <-]. cbn [remote disk stdout local_files]. now repeat split.
Qed.

(** X14.  A title that starts with ['/'] takes the download out of its
    folders: under the conditions of X13, whenever [download_file] returns
    normally the file has been written at the title itself, an absolute path,
    whatever the titles of its ancestors are. *)
Theorem download_absolute_title_escapes
  (fid : string) (file folder : Entry) (p : ParentRef) (rest : list ParentRef)
  (us : list string) (w : World) :
  lookup (remote w) fid = Some file ->
  mimeType file <> FOLDER_MIME_TYPE ->
  lookup (remote w) (file_id file) = Some file ->
  parents file = p :: rest ->
  lookup (remote w) (ref_id p) = Some folder ->
  Above (remote w) folder us ->
  startswith_sep (title file) = true ->
  exists fuel0, forall fuel,
    fuel0 <= fuel ->
    download_file fuel fid w <> OutOfFuel
    /\ forall w',
         download_file fuel fid w = Ret tt w' ->
         local_files (disk w') = (title file, content file) :: local_files (disk w).
Proof.
  intros Hl Hm Hself Hp Hf Ha Habs.
  destruct (download_file_single_run fid file folder p rest us w Hl Hm Hself Hp Hf Ha)
    as [fuel0 Hrun].
  exists fuel0. intros fuel Hle. destruct (Hrun fuel Hle) as [l Hrun'].
  rewrite Hrun'. split; [discriminate |].
  intros w' [= <-]. cbn [disk local_files].
  replace (us ++ [title folder; title file])
    with ((us ++ [title folder]) ++ [title file]) by now rewrite <- app_assoc.
  rewrite join_titles_snoc by (destruct us; discriminate).
  unfold path_join. now rewrite Habs.
Qed.

(** X15.  Round trip below the root: an existing local file is uploaded into
    a stored folder from which first parents lead to a root-flagged
    reference, by a service that assigns an unused identifier.  Downloading
    that identifier then does not run on for ever, and whenever it returns
    normally the uploaded content is at [os.path.join] of the titles of the
    chain, of the folder and of the base name of the uploaded path. *)
Theorem round_trip_below_root
  (filename parent_folder data fid : string) (ids : list string)
  (folder : Entry) (us : list string) (w : World) :
  assoc filename (local_files (disk w)) = Some data ->
  fresh_ids (remote w) = fid :: ids ->
  lookup (remote w) fid = None ->
  fid <> "root" ->
  parent_folder <> "" ->
  lookup (remote w) parent_folder = Some folder ->
  Above (remote w) folder us ->
  exists w1,
    upload filename (Some parent_folder) w = Ret tt w1
    /\ exists fuel0, forall fuel,
         fuel0 <= fuel ->
         download_file fuel fid w1 <> OutOfFuel
         /\ forall w2,
              download_file fuel fid w1 = Ret tt w2 ->
              assoc (join_titles (us ++ [title folder; last (split slash filename) ""]))
                    (local_files (disk w2))
              = Some data.
Proof.
  intros Hfile Hids Hfresh Hroot Hpf Hl Ha.
  destruct (upload_then_download_in_folder filename parent_folder data fid ids folder us w
              Hfile Hids Hfresh Hroot Hpf Hl Ha) as (w1 & Hup & fuel0 & Hdown).
  exists w1. split; [exact Hup |]. exists fuel0. intros fuel Hle.
  destruct (Hdown fuel Hle) as (w2 & Hw2 & Hassoc).
  rewrite Hw2. split; [discriminate |]. intros w2' [= <-].
  replace (us ++ [title folder; last (split slash filename) ""])
    with ((us ++ [title folder]) ++ [last (split slash filename) ""])
    by now rewrite <- app_assoc.
  now rewrite join_titles_fold_right.
Qed.

(** X16.  Recursive download: for a folder whose listed entries are mirrored
    by [fs] (files below chains of folders, sub-folders mirrored in turn),
    the recursion and the walks of [download_file] come to an end, and
    whenever it returns normally it has left the drive as it was and has
    written exactly the files of [fs], depth first in the order of the
    listings, each with the content of its entry. *)
Theorem download_file_mirrors_tree
  (fid : string) (file : Entry) (fs : list (string * string)) (w : World) :
  lookup (remote w) fid = Some file ->
  mimeType file = FOLDER_MIME_TYPE ->
  Mirrors (remote w) (children (remote w) fid) fs ->
  exists fuel0, forall fuel,
    fuel0 <= fuel ->
    download_file fuel fid w <> OutOfFuel
    /\ forall w',
         download_file fuel fid w = Ret tt w' ->
         remote w' = remote w
         /\ local_files (disk w') = rev fs ++ local_files (disk w).
Proof.
  intros Hl Hm Hmir.
  destruct (for_each_mirrors _ _ _ Hmir) as [fuel0 Hrun].
  exists (S fuel0). intros fuel Hle. destruct fuel as [| n]; [lia |].
  rewrite (download_file_folder _ _ _ _ Hl Hm).
  match goal with |- context [for_each _ _ ?w1] =>
    destruct (Hrun n w1) as (w' & Hw' & Hr & Hfiles); [lia | reflexivity |]
  end.
  rewrite Hw'. split; [discriminate |]. intros w'' [= <-].
  split; [exact Hr | exact Hfiles].
Qed.

(** ** The further theorems at concrete inputs *)

Lemma sample_B_above : Above (remote sample_world) sample_B ["A"].
Proof.
  apply (above_up _ sample_B (mkParentRef "a" false) [] sample_A []);
    try reflexivity.
  now apply (above_top _ sample_A (mkParentRef "r0" true) []).
Defined.

Lemma edge_A_above : Above (remote edge_world) edge_A [].
Proof. now apply (above_top _ edge_A (mkParentRef "r0" true) []). Defined.

Lemma sample_A_mirrors :
  Mirrors (remote sample_world) (children (remote sample_world) "a")
          ([("A/B/x.txt", "hello")] ++ []).
Proof.
  apply (mirrors_folder _ sample_B sample_B [] [("A/B/x.txt", "hello")] []);
    try reflexivity; [| apply mirrors_done].
  apply (mirrors_file _ sample_x sample_x sample_B (mkParentRef "b" false) [] ["A"] [] []);
    try reflexivity; [discriminate | exact sample_B_above | apply mirrors_done].
Defined.


Lemma upload_never_writes_locally_witness :
  exists w',
    final (upload "docs/n.txt" (Some "b") sample_world) = Some w'
    /\ disk w' = disk sample_world.
Proof.
  destruct (final (upload "docs/n.txt" (Some "b") sample_world)) as [w' |] eqn:H;
    [| vm_compute in H; discriminate].
  exists w'. split; [reflexivity |].
  exact (proj1 (upload_never_writes_locally "docs/n.txt" (Some "b") sample_world w' H)).
Defined.

Lemma list_files_prints_every_child_without_skipping_witness :
  exists w',
    list_files "root" false false sample_world
    = Ret (children (remote sample_world) "root") w'
    /\ stdout w' = stdout sample_world
                   ++ map list_line (children (remote sample_world) "root").
Proof.
  destruct (list_files_prints_every_child_without_skipping "root" false false sample_world)
    as (w' & Hrun & Hall & _).
  exists w'. split; [exact Hrun | exact (Hall eq_refl eq_refl)].
Defined.

Lemma parent_folder_is_ignored_without_upload_witness :
  truthy (arg_upload_file (mkArgs None None None (Some "f"))) = false
  /\ dispatch 5 (mkArgs None None (Some "b") (Some "f")) sample_world
     = dispatch 5 (mkArgs None None None (Some "f")) sample_world.
Proof.
  split; [reflexivity |].
  exact (parent_folder_is_ignored_without_upload
           5 (mkArgs None None None (Some "f")) (Some "b") sample_world
           (or_intror eq_refl)).
Defined.

Lemma bootstrap_authenticates_and_saves_witness :
  exists w',
    bootstrap edge_world = Ret tt w'
    /\ log w' = log edge_world ++ [Refresh]
    /\ credentials (gauth w') = Some "cached".
Proof.
  destruct (bootstrap edge_world) as [[] w' | e w' |] eqn:H;
    [| vm_compute in H; discriminate | vm_compute in H; discriminate].
  exists w'. split; [reflexivity |].
  destruct (bootstrap_authenticates_and_saves edge_world w' H) as (Hlog & _ & _ & Hkeep & _).
  split; [exact Hlog | exact (Hkeep "cached" eq_refl)].
Defined.

Lemma download_file_never_writes_to_drive_witness :
  exists w',
    final (download_file 5 "a" sample_world) = Some w'
    /\ remote w' = remote sample_world.
Proof.
  destruct (final (download_file 5 "a" sample_world)) as [w' |] eqn:H;
    [| vm_compute in H; discriminate].
  exists w'. split; [reflexivity |].
  exact (proj1 (download_file_never_writes_to_drive 5 "a" sample_world w' H)).
Defined.


Lemma download_file_prints_only_progress_witness :
  exists w',
    final (download_file 5 "a" sample_world) = Some w'
    /\ exists o, stdout w' = stdout sample_world ++ o /\ Forall is_download_line o.
Proof.
  destruct (final (download_file 5 "a" sample_world)) as [w' |] eqn:H;
    [| vm_compute in H; discriminate].
  exists w'. split; [reflexivity |].
  exact (download_file_prints_only_progress 5 "a" sample_world w' H).
Defined.

Lemma download_file_missing_entries_witness :
  lookup (remote sample_world) "zz" = None
  /\ download_file 1 "zz" sample_world
     = Raise ApiRequestError (logged (FilesGet "zz") sample_world).
Proof.
  split; [reflexivity |].
  exact (proj1 (download_file_missing_entries 0 "zz" sample_world) eq_refl).
Defined.

Lemma download_file_empty_folder_witness :
  children (remote edge_world) "e" = []
  /\ download_file 1 "e" edge_world
     = Ret tt (mkWorld (remote edge_world) (disk edge_world)
                       (stdout edge_world ++ [recursion_notice edge_E])
                       (log edge_world ++ [FilesGet "e"; FilesList (list_query "e")])
                       (gauth edge_world)).
Proof.
  split; [reflexivity |].
  exact (download_file_empty_folder 0 "e" edge_E edge_world eq_refl eq_refl eq_refl).
Defined.

Lemma download_file_stops_at_first_failure_witness :
  children (remote sample_world) "r0" = [sample_A] ++ sample_y :: []
  /\ exists w2,
       download_file 4 "r0" sample_world = Raise IndexError w2
       /\ local_files (disk w2)
          = [("A/B/x.txt", "hello"); ("docs/n.txt", "data")].
Proof.
  split; [reflexivity |].
  eexists. split.
  - refine (proj1 (download_file_stops_at_first_failure
                     3 "r0" sample_root sample_y [sample_A] [] IndexError
                     sample_world _ _ eq_refl eq_refl eq_refl _ _));
      vm_compute; reflexivity.
  - reflexivity.
Defined.

Lemma ancestor_walk_joins_titles_witness :
  Above (remote sample_world) sample_B ["A"]
  /\ exists w',
       ancestor_walk 1 sample_B "B" sample_world = Ret "A/B" w'.
Proof.
  split; [exact sample_B_above |].
  destruct (ancestor_walk_joins_titles (remote sample_world) sample_B ["A"] sample_B_above
              1 "B" sample_world eq_refl (le_n 1)) as (w' & Hrun & _).
  exists w'. exact Hrun.
Defined.

Lemma download_file_writes_at_joined_path_witness :
  lookup (remote sample_world) "f" = Some sample_x
  /\ Above (remote sample_world) sample_B ["A"]
  /\ exists fuel0, forall fuel,
       fuel0 <= fuel ->
       forall w',
         download_file fuel "f" sample_world = Ret tt w' ->
         local_files (disk w') = [("A/B/x.txt", "hello"); ("docs/n.txt", "data")].
Proof.
  split; [reflexivity |]. split; [exact sample_B_above |].
  destruct (download_file_writes_at_joined_path
              "f" sample_x sample_B (mkParentRef "b" false) []
              ["A"] sample_world eq_refl) as [fuel0 H];
    [discriminate | reflexivity | reflexivity | reflexivity | exact sample_B_above |].
  exists fuel0. intros fuel Hle w' Hrun.
  destruct (H fuel Hle) as (_ & Hpart).
  destruct (Hpart w' Hrun) as (_ & Hfiles & _). exact Hfiles.
Defined.

Lemma download_absolute_title_escapes_witness :
  startswith_sep (title edge_abs) = true
  /\ exists fuel0, forall fuel,
       fuel0 <= fuel ->
       forall w',
         download_file fuel "v" edge_world = Ret tt w' ->
         local_files (disk w') = [("/tmp/evil", "payload")].
Proof.
  split; [reflexivity |].
  destruct (download_absolute_title_escapes "v" edge_abs edge_A (mkParentRef "a" false) []
              [] edge_world eq_refl) as [fuel0 H];
    [discriminate | reflexivity | reflexivity | reflexivity | exact edge_A_above
     | reflexivity |].
  exists fuel0. intros fuel Hle w' Hrun.
  destruct (H fuel Hle) as (_ & Hpart). exact (Hpart w' Hrun).
Defined.

Lemma round_trip_below_root_witness :
  assoc "docs/n.txt" (local_files (disk sample_world)) = Some "data"
  /\ exists w1,
       upload "docs/n.txt" (Some "b") sample_world = Ret tt w1
       /\ exists fuel0, forall fuel,
            fuel0 <= fuel ->
            forall w2,
              download_file fuel "n1" w1 = Ret tt w2 ->
              assoc "A/B/n.txt" (local_files (disk w2)) = Some "data".
Proof.
  split; [reflexivity |].
  destruct (round_trip_below_root "docs/n.txt" "b" "data" "n1" ["n2"] sample_B ["A"]
              sample_world eq_refl eq_refl eq_refl)
    as (w1 & Hup & fuel0 & H);
    [discriminate | discriminate | reflexivity | exact sample_B_above |].
  exists w1. split; [exact Hup |]. exists fuel0. intros fuel Hle w2 Hrun.
  destruct (H fuel Hle) as (_ & Hpart). exact (Hpart w2 Hrun).
Defined.

Lemma download_file_mirrors_tree_witness :
  Mirrors (remote sample_world) (children (remote sample_world) "a")
          [("A/B/x.txt", "hello")]
  /\ exists fuel0, forall fuel,
       fuel0 <= fuel ->
       forall w',
         download_file fuel "a" sample_world = Ret tt w' ->
         local_files (disk w') = [("A/B/x.txt", "hello"); ("docs/n.txt", "data")].
Proof.
  split; [exact sample_A_mirrors |].
  destruct (download_file_mirrors_tree "a" sample_A [("A/B/x.txt", "hello")] sample_world
              eq_refl eq_refl sample_A_mirrors) as [fuel0 H].
  exists fuel0. intros fuel Hle w' Hrun.
  destruct (H fuel Hle) as (_ & Hpart).
  destruct (Hpart w' Hrun) as (_ & Hfiles). exact Hfiles.
Defined.
